(** * Vote / reputation engine, follow graph, featured answers and the
      socket fan-out of the Q&A forum backend

    A shallow embedding of the controllers ([answerController],
    [questionController], [userController]), of the Mongoose models with
    their save hooks ([Answer], [Question], [Topic]) and of [socket.js].
    The document store is a record of finite maps from [_id] to document;
    every handler is a function from the store (and the request) to the
    store it leaves behind together with the response it sends. *)

From Stdlib Require Import ZArith String List.
From stdpp Require Import base gmap list strings.
Import ListNotations.

Local Open Scope Z_scope.
Local Open Scope string_scope.

(** An [ObjectId] is compared through [toString()] everywhere in the
    controllers, so it is carried as its string form. *)
Abbreviation ObjectId := string (only parsing).

(** ** MongoDB update operators on array fields *)

(** [includes] / [some(x => x.toString() === id)] *)
Definition includes (x : ObjectId) (l : list ObjectId) : bool :=
  existsb (String.eqb x) l.

(** [filter(x => x.toString() !== id)] and [$pull] *)
Definition pull (x : ObjectId) (l : list ObjectId) : list ObjectId :=
  List.filter (fun y => negb (String.eqb y x)) l.

(** [push] *)
Definition push (x : ObjectId) (l : list ObjectId) : list ObjectId :=
  l ++ [x].

(** [$addToSet] *)
Definition addToSet (x : string) (l : list string) : list string :=
  if includes x l then l else l ++ [x].

(** ** Models *)

(** Modelled from the spec: the [User] schema ([models/User.js] is
    required by every controller but is not among the sources).  The
    fields are those the controllers read and update: [role],
    [reputation], the two counters of the save hooks, the follow lists and
    [badges]. *)
Module User.
Record doc := mk {
  role : string;
  reputation : Z;
  questionsCount : Z;
  answersCount : Z;
  following : list ObjectId;
  followers : list ObjectId;
  followingTopics : list ObjectId;
  badges : list string
}.

Definition inc_reputation (n : Z) (u : doc) : doc :=
  mk (role u) (reputation u + n) (questionsCount u) (answersCount u)
     (following u) (followers u) (followingTopics u) (badges u).
Definition inc_questionsCount (n : Z) (u : doc) : doc :=
  mk (role u) (reputation u) (questionsCount u + n) (answersCount u)
     (following u) (followers u) (followingTopics u) (badges u).
Definition inc_answersCount (n : Z) (u : doc) : doc :=
  mk (role u) (reputation u) (questionsCount u) (answersCount u + n)
     (following u) (followers u) (followingTopics u) (badges u).
Definition upd_following (f : list ObjectId -> list ObjectId) (u : doc) : doc :=
  mk (role u) (reputation u) (questionsCount u) (answersCount u)
     (f (following u)) (followers u) (followingTopics u) (badges u).
Definition upd_followers (f : list ObjectId -> list ObjectId) (u : doc) : doc :=
  mk (role u) (reputation u) (questionsCount u) (answersCount u)
     (following u) (f (followers u)) (followingTopics u) (badges u).
Definition upd_followingTopics (f : list ObjectId -> list ObjectId) (u : doc) : doc :=
  mk (role u) (reputation u) (questionsCount u) (answersCount u)
     (following u) (followers u) (f (followingTopics u)) (badges u).
Definition upd_badges (f : list string -> list string) (u : doc) : doc :=
  mk (role u) (reputation u) (questionsCount u) (answersCount u)
     (following u) (followers u) (followingTopics u) (f (badges u)).
End User.

(** [questionSchema]; title, content, topics and the timestamps play no
    part in the handlers below and are left out. *)
Module Question.
Record doc := mk {
  author : ObjectId;
  upvotes : list ObjectId;
  downvotes : list ObjectId;
  views : Z;
  answersCount : Z;
  isAnswered : bool;
  featuredAnswer : option ObjectId
}.

Definition set_votes (up down : list ObjectId) (q : doc) : doc :=
  mk (author q) up down (views q) (answersCount q) (isAnswered q)
     (featuredAnswer q).
Definition inc_answersCount (n : Z) (q : doc) : doc :=
  mk (author q) (upvotes q) (downvotes q) (views q) (answersCount q + n)
     (isAnswered q) (featuredAnswer q).
Definition set_featured (a : ObjectId) (q : doc) : doc :=
  mk (author q) (upvotes q) (downvotes q) (views q) (answersCount q)
     true (Some a).
Definition inc_views (n : Z) (q : doc) : doc :=
  mk (author q) (upvotes q) (downvotes q) (views q + n) (answersCount q)
     (isAnswered q) (featuredAnswer q).
End Question.

(** [answerSchema]; [content] is kept because it is [required]. *)
Module Answer.
Record doc := mk {
  content : string;
  question : ObjectId;
  author : ObjectId;
  upvotes : list ObjectId;
  downvotes : list ObjectId;
  isFeatured : bool
}.

Definition set_votes (up down : list ObjectId) (a : doc) : doc :=
  mk (content a) (question a) (author a) up down (isFeatured a).
Definition set_isFeatured (b : bool) (a : doc) : doc :=
  mk (content a) (question a) (author a) (upvotes a) (downvotes a) b.
Definition set_author (u : ObjectId) (a : doc) : doc :=
  mk (content a) (question a) u (upvotes a) (downvotes a) (isFeatured a).
End Answer.

(** [topicSchema] *)
Module Topic.
Record doc := mk {
  followers : list ObjectId;
  questionsCount : Z
}.

Definition upd_followers (f : list ObjectId -> list ObjectId) (t : doc) : doc :=
  mk (f (followers t)) (questionsCount t).
End Topic.

(** ** The document store *)

Record Db := mkDb {
  users : gmap string User.doc;
  questions : gmap string Question.doc;
  answers : gmap string Answer.doc;
  topics : gmap string Topic.doc
}.

Definition with_users (f : gmap string User.doc -> gmap string User.doc) (db : Db) : Db :=
  mkDb (f (users db)) (questions db) (answers db) (topics db).
Definition with_questions (f : gmap string Question.doc -> gmap string Question.doc) (db : Db) : Db :=
  mkDb (users db) (f (questions db)) (answers db) (topics db).
Definition with_answers (f : gmap string Answer.doc -> gmap string Answer.doc) (db : Db) : Db :=
  mkDb (users db) (questions db) (f (answers db)) (topics db).
Definition with_topics (f : gmap string Topic.doc -> gmap string Topic.doc) (db : Db) : Db :=
  mkDb (users db) (questions db) (answers db) (f (topics db)).

(** [Model.findByIdAndUpdate(id, update)] and [Model.updateOne({_id: id},
    update)]: the update is applied to the document with that [_id], and
    nothing happens when there is none. *)
Definition User_update (id : ObjectId) (f : User.doc -> User.doc) : Db -> Db :=
  with_users (alter f id).
Definition Question_update (id : ObjectId) (f : Question.doc -> Question.doc) : Db -> Db :=
  with_questions (alter f id).
Definition Topic_update (id : ObjectId) (f : Topic.doc -> Topic.doc) : Db -> Db :=
  with_topics (alter f id).

(** [Answer.updateMany({question: q, _id: {$ne: a}}, {isFeatured: false})] *)
Definition Answer_unfeature_others (q a : ObjectId) : Db -> Db :=
  with_answers (map_imap (fun id d =>
    Some (if String.eqb (Answer.question d) q && negb (String.eqb id a)
          then Answer.set_isFeatured false d else d))).

(** [answerSchema.post('save')]: runs after every [save()] of an answer
    document, with [doc] the saved document. *)
Definition Answer_post_save (doc : Answer.doc) (db : Db) : Db :=
  let db := Question_update (Answer.question doc) (Question.inc_answersCount 1) db in
  User_update (Answer.author doc)
    (fun u => User.inc_reputation 5 (User.inc_answersCount 1 u)) db.

(** [answer.save()] (and the [save] inside [Answer.create]): the document
    is written under its [_id], then the post-save hook runs. *)
Definition Answer_save (id : ObjectId) (doc : Answer.doc) (db : Db) : Db :=
  Answer_post_save doc (with_answers (insert id doc) db).

(** [questionSchema.post('save')] *)
Definition Question_post_save (doc : Question.doc) (db : Db) : Db :=
  User_update (Question.author doc) (User.inc_questionsCount 1) db.

Definition Question_save (id : ObjectId) (doc : Question.doc) (db : Db) : Db :=
  Question_post_save doc (with_questions (insert id doc) db).

(** ** Requests and responses *)

(** [new AppError(message, statusCode)] handed to [next], or an exception
    caught by [catchAsync] and handed to [next] as it is. *)
Inductive Failure :=
  | AppError (message : string) (statusCode : Z)
  | ValidationError (message : string)
  | TypeError (message : string).

Inductive Response :=
  | Next (err : Failure)
  | Json (status : Z).

(** [req.user]: the authenticated user, its [id] and its document. *)
Record ReqUser := mkReqUser {
  id : ObjectId;
  doc : User.doc
}.

(** Modelled from the spec: [authController.protect] (every private route
    goes through it, but it is not defined in the sources).  The operations
    take the id of a valid acting user; [protect] resolves it to the stored
    user document and attaches that as [req.user], and answers 401 when
    there is no such user. *)
Definition protect (db : Db) (uid : ObjectId) : Failure + ReqUser :=
  match users db !! uid with
  | Some u => inr (mkReqUser uid u)
  | None => inl (AppError "The user belonging to this token no longer exists" 401)
  end.

(** ** answerController *)

Module answerController.

Definition createAnswer (db : Db) (user : ReqUser) (_id : ObjectId)
    (body : Answer.doc) : Db * Response :=
  let body := Answer.set_author (id user) body in
  match questions db !! Answer.question body with
  | None => (db, Next (AppError "No question found with that ID" 404))
  | Some _ =>
      if String.eqb (Answer.content body) ""
      then (db, Next (ValidationError "Please provide content for your answer"))
      else (Answer_save _id body db, Json 201)
  end.

Definition upvoteAnswer (db : Db) (user : ReqUser) (params_id : ObjectId)
    : Db * Response :=
  match answers db !! params_id with
  | None => (db, Next (AppError "No answer found with that ID" 404))
  | Some answer =>
      if includes (id user) (Answer.upvotes answer)
      then (db, Next (AppError "Answer already upvoted" 400))
      else
        let downvotes := pull (id user) (Answer.downvotes answer) in
        let upvotes := push (id user) (Answer.upvotes answer) in
        let answer := Answer.set_votes upvotes downvotes answer in
        let db := Answer_save params_id answer db in
        let db := User_update (Answer.author answer) (User.inc_reputation 15) db in
        (db, Json 200)
  end.

Definition downvoteAnswer (db : Db) (user : ReqUser) (params_id : ObjectId)
    : Db * Response :=
  match answers db !! params_id with
  | None => (db, Next (AppError "No answer found with that ID" 404))
  | Some answer =>
      if includes (id user) (Answer.downvotes answer)
      then (db, Next (AppError "Answer already downvoted" 400))
      else
        let upvotes := pull (id user) (Answer.upvotes answer) in
        let downvotes := push (id user) (Answer.downvotes answer) in
        let answer := Answer.set_votes upvotes downvotes answer in
        let db := Answer_save params_id answer db in
        let db := User_update (Answer.author answer) (User.inc_reputation (-5)) db in
        (db, Json 200)
  end.

Definition featureAnswer (db : Db) (user : ReqUser) (params_id : ObjectId)
    : Db * Response :=
  match answers db !! params_id with
  | None => (db, Next (AppError "No answer found with that ID" 404))
  | Some answer =>
      (* populate('question') *)
      match questions db !! Answer.question answer with
      | None => (db, Next (TypeError "Cannot read properties of null (reading 'author')"))
      | Some question =>
          if negb (String.eqb (Question.author question) (id user))
             && negb (String.eqb (User.role (doc user)) "admin")
          then (db, Next (AppError "You are not authorized to feature this answer" 401))
          else
            let question_id := Answer.question answer in
            let db := Answer_unfeature_others question_id params_id db in
            let answer := Answer.set_isFeatured true answer in
            let db := Answer_save params_id answer db in
            let db := Question_update question_id (Question.set_featured params_id) db in
            let db := User_update (Answer.author answer)
                        (fun u => User.upd_badges (addToSet "featured-answer")
                                    (User.inc_reputation 50 u)) db in
            (db, Json 200)
      end
  end.

Definition deleteAnswer (db : Db) (user : ReqUser) (params_id : ObjectId)
    : Db * Response :=
  match answers db !! params_id with
  | None => (db, Next (AppError "No answer found with that ID" 404))
  | Some answer =>
      if negb (String.eqb (Answer.author answer) (id user))
         && negb (String.eqb (User.role (doc user)) "admin")
      then (db, Next (AppError "You are not authorized to delete this answer" 401))
      else
        (* answer.remove() *)
        (with_answers (delete params_id) db, Json 204)
  end.

End answerController.

(** ** questionController *)

Module questionController.

Definition upvoteQuestion (db : Db) (user : ReqUser) (params_id : ObjectId)
    : Db * Response :=
  match questions db !! params_id with
  | None => (db, Next (AppError "No question found with that ID" 404))
  | Some question =>
      if includes (id user) (Question.upvotes question)
      then (db, Next (AppError "Question already upvoted" 400))
      else
        let downvotes := pull (id user) (Question.downvotes question) in
        let upvotes := push (id user) (Question.upvotes question) in
        let question := Question.set_votes upvotes downvotes question in
        let db := Question_save params_id question db in
        let db := User_update (Question.author question) (User.inc_reputation 10) db in
        (db, Json 200)
  end.

Definition downvoteQuestion (db : Db) (user : ReqUser) (params_id : ObjectId)
    : Db * Response :=
  match questions db !! params_id with
  | None => (db, Next (AppError "No question found with that ID" 404))
  | Some question =>
      if includes (id user) (Question.downvotes question)
      then (db, Next (AppError "Question already downvoted" 400))
      else
        let upvotes := pull (id user) (Question.upvotes question) in
        let downvotes := push (id user) (Question.downvotes question) in
        let question := Question.set_votes upvotes downvotes question in
        let db := Question_save params_id question db in
        let db := User_update (Question.author question) (User.inc_reputation (-2)) db in
        (db, Json 200)
  end.

(** [getQuestion] is public: there is no [req.user].  The populated paths
    only shape the response; [save()] writes the incremented [views]. *)
Definition getQuestion (db : Db) (params_id : ObjectId) : Db * Response :=
  match questions db !! params_id with
  | None => (db, Next (AppError "No question found with that ID" 404))
  | Some question =>
      let question := Question.inc_views 1 question in
      (Question_save params_id question db, Json 200)
  end.

Definition deleteQuestion (db : Db) (user : ReqUser) (params_id : ObjectId)
    : Db * Response :=
  match questions db !! params_id with
  | None => (db, Next (AppError "No question found with that ID" 404))
  | Some question =>
      if negb (String.eqb (Question.author question) (id user))
         && negb (String.eqb (User.role (doc user)) "admin")
      then (db, Next (AppError "You are not authorized to delete this question" 401))
      else
        (* question.remove() *)
        (with_questions (delete params_id) db, Json 204)
  end.

End questionController.

(** ** userController: the follow graph *)

Module userController.

Definition followTopic (db : Db) (user : ReqUser) (params_topicId : ObjectId)
    : Db * Response :=
  match topics db !! params_topicId with
  | None => (db, Next (AppError "No topic found with that ID" 404))
  | Some _ =>
      if includes params_topicId (User.followingTopics (doc user))
      then (db, Next (AppError "You already follow this topic" 400))
      else
        let db := User_update (id user)
                    (User.upd_followingTopics (addToSet params_topicId)) db in
        let db := Topic_update params_topicId
                    (Topic.upd_followers (addToSet (id user))) db in
        (db, Json 200)
  end.

Definition unfollowTopic (db : Db) (user : ReqUser) (params_topicId : ObjectId)
    : Db * Response :=
  match topics db !! params_topicId with
  | None => (db, Next (AppError "No topic found with that ID" 404))
  | Some _ =>
      if negb (includes params_topicId (User.followingTopics (doc user)))
      then (db, Next (AppError "You do not follow this topic" 400))
      else
        let db := User_update (id user)
                    (User.upd_followingTopics (pull params_topicId)) db in
        let db := Topic_update params_topicId
                    (Topic.upd_followers (pull (id user))) db in
        (db, Json 200)
  end.

Definition followUser (db : Db) (user : ReqUser) (params_userId : ObjectId)
    : Db * Response :=
  if String.eqb (id user) params_userId
  then (db, Next (AppError "You cannot follow yourself" 400))
  else
    match users db !! params_userId with
    | None => (db, Next (AppError "No user found with that ID" 404))
    | Some _ =>
        if includes params_userId (User.following (doc user))
        then (db, Next (AppError "You already follow this user" 400))
        else
          let db := User_update (id user)
                      (User.upd_following (addToSet params_userId)) db in
          let db := User_update params_userId
                      (User.upd_followers (addToSet (id user))) db in
          (db, Json 200)
    end.

Definition unfollowUser (db : Db) (user : ReqUser) (params_userId : ObjectId)
    : Db * Response :=
  if String.eqb (id user) params_userId
  then (db, Next (AppError "You cannot unfollow yourself" 400))
  else
    match users db !! params_userId with
    | None => (db, Next (AppError "No user found with that ID" 404))
    | Some _ =>
        if negb (includes params_userId (User.following (doc user)))
        then (db, Next (AppError "You do not follow this user" 400))
        else
          let db := User_update (id user)
                      (User.upd_following (pull params_userId)) db in
          let db := User_update params_userId
                      (User.upd_followers (pull (id user))) db in
          (db, Json 200)
    end.

(** [User.findByIdAndDelete(req.params.id)] *)
Definition deleteUser (db : Db) (params_id : ObjectId) : Db * Response :=
  match users db !! params_id with
  | None => (db, Next (AppError "No user found with that ID" 404))
  | Some _ => (with_users (delete params_id) db, Json 204)
  end.

End userController.

(** ** topicController *)

Module topicController.

(** [Topic.findByIdAndDelete(req.params.id)] *)
Definition deleteTopic (db : Db) (params_id : ObjectId) : Db * Response :=
  match topics db !! params_id with
  | None => (db, Next (AppError "No topic found with that ID" 404))
  | Some _ => (with_topics (delete params_id) db, Json 204)
  end.

End topicController.

(** ** Routes: [authController.protect] in front of the handler *)

Definition route (handler : Db -> ReqUser -> ObjectId -> Db * Response)
    (db : Db) (uid : ObjectId) (param : ObjectId) : Db * Response :=
  match protect db uid with
  | inl err => (db, Next err)
  | inr user => handler db user param
  end.

(** ** socket.js *)

Module socket.

(** The adapter of the socket server: for every room the set of the ids
    of the sockets that joined it. *)
Abbreviation Rooms := (gmap string (gset string)).

Definition members (rooms : Rooms) (room : string) : gset string :=
  default ∅ (rooms !! room).

(** [socket.join(room)] *)
Definition join (sid room : string) (rooms : Rooms) : Rooms :=
  <[room := {[sid]} ∪ members rooms room]> rooms.

Definition drop (sid : string) (s : gset string) : option (gset string) :=
  let s' := s ∖ {[sid]} in
  if decide (s' = ∅) then None else Some s'.

(** [socket.leave(room)]; a room left empty is deleted *)
Definition leave (sid room : string) (rooms : Rooms) : Rooms :=
  partial_alter (fun o => o ≫= drop sid) room rooms.

(** what the server does for a socket that goes away: it leaves every room *)
Definition leaveAll (sid : string) (rooms : Rooms) : Rooms :=
  omap (drop sid) rooms.

(** Events a client sends *)
Inductive Incoming :=
  | joinQuestion (questionId : string)
  | leaveQuestion (questionId : string)
  | newAnswer (questionId : string) (answer : string)
  | answerUpvoted (questionId : string) (answerId : string)
  | answerDownvoted (questionId : string) (answerId : string)
  | answerFeatured (questionId : string) (answerId : string)
  | disconnect.

(** Events the server emits *)
Inductive Outgoing :=
  | emit_answerAdded (answer : string)
  | emit_answerUpdated (answerId : string) (type : string)
  | emit_answerFeatured (answerId : string).

(** [socket.to(room).emit(...)]: the event goes to every socket in
    [room] except [socket] itself. *)
Definition socket_to (rooms : Rooms) (sid room : string) : gset string :=
  members rooms room ∖ {[sid]}.

(** [io.on('connection', socket => ...)]: a new socket is in the room
    named by its own id. *)
Definition connection (sid : string) (rooms : Rooms) : Rooms :=
  join sid sid rooms.

(** The handlers registered on a socket: the rooms afterwards, and the
    broadcast (recipients and event) if the handler emits one. *)
Definition on (rooms : Rooms) (sid : string) (ev : Incoming)
    : Rooms * option (gset string * Outgoing) :=
  match ev with
  | joinQuestion questionId => (join sid questionId rooms, None)
  | leaveQuestion questionId => (leave sid questionId rooms, None)
  | newAnswer questionId answer =>
      (rooms, Some (socket_to rooms sid questionId, emit_answerAdded answer))
  | answerUpvoted questionId answerId =>
      (rooms, Some (socket_to rooms sid questionId,
                    emit_answerUpdated answerId "upvote"))
  | answerDownvoted questionId answerId =>
      (rooms, Some (socket_to rooms sid questionId,
                    emit_answerUpdated answerId "downvote"))
  | answerFeatured questionId answerId =>
      (rooms, Some (socket_to rooms sid questionId,
                    emit_answerFeatured answerId))
  | disconnect => (leaveAll sid rooms, None)
  end.

(** The connections an event sent by [sid] is delivered to *)
Definition recipients (rooms : Rooms) (sid : string) (ev : Incoming)
    : gset string :=
  match snd (on rooms sid ev) with
  | Some (to, _) => to
  | None => ∅
  end.

(** The room an event is published to *)
Definition room_of (ev : Incoming) : option string :=
  match ev with
  | newAnswer questionId _ | answerUpvoted questionId _
  | answerDownvoted questionId _ | answerFeatured questionId _ =>
      Some questionId
  | joinQuestion _ | leaveQuestion _ | disconnect => None
  end.

End socket.

(** ** The operations by entity kind and direction *)

Inductive Direction := up | down.

Inductive Kind := question_kind | answer_kind.

Definition opposite (dir : Direction) : Direction :=
  match dir with up => down | down => up end.

(** [voteQuestion] / [voteAnswer] of the external interface: the four
    vote handlers, selected by entity kind and direction. *)
Definition vote (kind : Kind) (dir : Direction)
    : Db -> ReqUser -> ObjectId -> Db * Response :=
  match kind, dir with
  | question_kind, up => questionController.upvoteQuestion
  | question_kind, down => questionController.downvoteQuestion
  | answer_kind, up => answerController.upvoteAnswer
  | answer_kind, down => answerController.downvoteAnswer
  end.

(** The pair (upvotes, downvotes) of an entity, when it exists *)
Definition vote_sets (kind : Kind) (db : Db) (eid : ObjectId)
    : option (list ObjectId * list ObjectId) :=
  match kind with
  | question_kind =>
      (fun q => (Question.upvotes q, Question.downvotes q)) <$> questions db !! eid
  | answer_kind =>
      (fun a => (Answer.upvotes a, Answer.downvotes a)) <$> answers db !! eid
  end.

Definition author_of (kind : Kind) (db : Db) (eid : ObjectId) : option ObjectId :=
  match kind with
  | question_kind => Question.author <$> questions db !! eid
  | answer_kind => Answer.author <$> answers db !! eid
  end.

Definition voters (dir : Direction) (sets : list ObjectId * list ObjectId)
    : list ObjectId :=
  match dir with up => fst sets | down => snd sets end.

Definition reputation_of (db : Db) (uid : ObjectId) : option Z :=
  User.reputation <$> users db !! uid.

(** A vote request, and a sequence of them served one after the other *)
Record VoteRequest := mkVoteRequest {
  vr_kind : Kind;
  vr_dir : Direction;
  vr_user : ReqUser;
  vr_entity : ObjectId
}.

Definition serve_vote (db : Db) (r : VoteRequest) : Db :=
  fst (vote (vr_kind r) (vr_dir r) db (vr_user r) (vr_entity r)).

Definition serve_votes (db : Db) (rs : list VoteRequest) : Db :=
  foldl serve_vote db rs.

(** What a successful vote in direction [dir] by [u] does to the two sets *)
Definition cast (dir : Direction) (u : ObjectId)
    (sets : list ObjectId * list ObjectId) : list ObjectId * list ObjectId :=
  match dir with
  | up => (push u (fst sets), pull u (snd sets))
  | down => (pull u (fst sets), push u (snd sets))
  end.

(** No user is in both sets *)
Definition exclusive (sets : list ObjectId * list ObjectId) : Prop :=
  ∀ u, ¬ (u ∈ fst sets ∧ u ∈ snd sets).

(** [featureAnswer] lets the author of the question and admins through *)
Definition may_feature (user : ReqUser) (q : Question.doc) : bool :=
  String.eqb (Question.author q) (id user)
  || String.eqb (User.role (doc user)) "admin".

(** ** Sample data *)

Module sample.

Definition member : User.doc := User.mk "user" 0 0 0 [] [] [] [].

Definition U1 : ReqUser := mkReqUser "u1" member.
Definition U2 : ReqUser := mkReqUser "u2" member.

(** Question [q] by [u1] with two answers by [u3] and [u4]; nobody has
    voted. *)
Definition db0 : Db :=
  mkDb
    (<["u1" := member]> (<["u2" := member]> (<["u3" := member]>
       (<["u4" := member]> ∅))))
    (<["q" := Question.mk "u1" [] [] 0 2 false None]> ∅)
    (<["a1" := Answer.mk "first" "q" "u3" [] [] false]>
       (<["a2" := Answer.mk "second" "q" "u4" [] [] false]> ∅))
    (<["t" := Topic.mk [] 0]> ∅).

(** [db0] after [u2] downvoted the question / the answer [a1] *)
Definition db_down : Db := fst (questionController.downvoteQuestion db0 U2 "q").
Definition db_up : Db := fst (questionController.upvoteQuestion db0 U2 "q").

End sample.

(** ** Requests that save an answer document *)

Inductive AnswerSave :=
  | by_createAnswer (_id : ObjectId) (body : Answer.doc)
  | by_upvoteAnswer (params_id : ObjectId)
  | by_downvoteAnswer (params_id : ObjectId)
  | by_featureAnswer (params_id : ObjectId).

Definition serve_answer (db : Db) (user : ReqUser) (r : AnswerSave)
    : Db * Response :=
  match r with
  | by_createAnswer _id body => answerController.createAnswer db user _id body
  | by_upvoteAnswer i => answerController.upvoteAnswer db user i
  | by_downvoteAnswer i => answerController.downvoteAnswer db user i
  | by_featureAnswer i => answerController.featureAnswer db user i
  end.

Definition saved_id (r : AnswerSave) : ObjectId :=
  match r with
  | by_createAnswer i _ | by_upvoteAnswer i | by_downvoteAnswer i
  | by_featureAnswer i => i
  end.

(** ** Follow requests and the mirrored relations *)

Inductive FollowRequest :=
  | FollowUser (actor target : ObjectId)
  | UnfollowUser (actor target : ObjectId)
  | FollowTopic (actor topic : ObjectId)
  | UnfollowTopic (actor topic : ObjectId).

Definition serve_follow (db : Db) (r : FollowRequest) : Db :=
  fst match r with
      | FollowUser a b => route userController.followUser db a b
      | UnfollowUser a b => route userController.unfollowUser db a b
      | FollowTopic a t => route userController.followTopic db a t
      | UnfollowTopic a t => route userController.unfollowTopic db a t
      end.

Definition serve_follows (db : Db) (rs : list FollowRequest) : Db :=
  foldl serve_follow db rs.

Definition follows (db : Db) (a b : ObjectId) : Prop :=
  ∃ u, users db !! a = Some u ∧ b ∈ User.following u.

Definition followed_by (db : Db) (b a : ObjectId) : Prop :=
  ∃ u, users db !! b = Some u ∧ a ∈ User.followers u.

Definition follows_topic (db : Db) (a t : ObjectId) : Prop :=
  ∃ u, users db !! a = Some u ∧ t ∈ User.followingTopics u.

Definition topic_followed_by (db : Db) (t a : ObjectId) : Prop :=
  ∃ d, topics db !! t = Some d ∧ a ∈ Topic.followers d.

Definition follow_symmetric (db : Db) : Prop :=
  (∀ a b, follows db a b ↔ followed_by db b a)
  ∧ (∀ a t, follows_topic db a t ↔ topic_followed_by db t a).

(** The follow lists of a user or topic, empty when there is no such
    document *)
Definition user_list (proj : User.doc -> list ObjectId) (db : Db)
    (x : ObjectId) : list ObjectId :=
  from_option proj [] (users db !! x).

Definition topic_list (db : Db) (t : ObjectId) : list ObjectId :=
  from_option Topic.followers [] (topics db !! t).

(** ** Every request of the controllers *)

Inductive Request :=
  | req_vote (kind : Kind) (dir : Direction) (params_id : ObjectId)
  | req_createAnswer (_id : ObjectId) (body : Answer.doc)
  | req_featureAnswer (params_id : ObjectId)
  | req_deleteAnswer (params_id : ObjectId)
  | req_getQuestion (params_id : ObjectId)
  | req_deleteQuestion (params_id : ObjectId)
  | req_followUser (params_userId : ObjectId)
  | req_unfollowUser (params_userId : ObjectId)
  | req_followTopic (params_topicId : ObjectId)
  | req_unfollowTopic (params_topicId : ObjectId)
  | req_deleteUser (params_id : ObjectId)
  | req_deleteTopic (params_id : ObjectId).

Definition handle (db : Db) (user : ReqUser) (r : Request) : Db * Response :=
  match r with
  | req_vote kind dir i => vote kind dir db user i
  | req_createAnswer _id body => answerController.createAnswer db user _id body
  | req_featureAnswer i => answerController.featureAnswer db user i
  | req_deleteAnswer i => answerController.deleteAnswer db user i
  | req_getQuestion i => questionController.getQuestion db i
  | req_deleteQuestion i => questionController.deleteQuestion db user i
  | req_followUser i => userController.followUser db user i
  | req_unfollowUser i => userController.unfollowUser db user i
  | req_followTopic i => userController.followTopic db user i
  | req_unfollowTopic i => userController.unfollowTopic db user i
  | req_deleteUser i => userController.deleteUser db i
  | req_deleteTopic i => topicController.deleteTopic db i
  end.

(** One round of a voter changing their mind: a downvote, then an upvote *)
Definition flip_round (kind : Kind) (user : ReqUser) (eid : ObjectId)
    (db : Db) : Db :=
  fst (vote kind up (fst (vote kind down db user eid)) user eid).


(** [deleteAnswer] / [deleteQuestion] let the author and admins through *)
Definition may_delete (user : ReqUser) (author : ObjectId) : bool :=
  String.eqb author (id user) || String.eqb (User.role (doc user)) "admin".

(** No follow list holds an id twice *)
Definition user_lists_nodup (u : User.doc) : Prop :=
  NoDup (User.following u) ∧ NoDup (User.followers u)
  ∧ NoDup (User.followingTopics u).

Definition follow_lists_nodup (db : Db) : Prop :=
  (∀ a u, users db !! a = Some u → user_lists_nodup u)
  ∧ (∀ t d, topics db !! t = Some d → NoDup (Topic.followers d)).

(** * Properties *)

(** ** Array operators *)

Section array_operators.
Implicit Types (x y : string) (l : list string).

Lemma includes_true x l : includes x l = true ↔ x ∈ l.
Proof.
  unfold includes. rewrite existsb_exists. split.
  - intros (y & Hin & Heq). apply String.eqb_eq in Heq. subst y.
    by apply list_elem_of_In.
  - intros Hin. exists x. split; [by apply list_elem_of_In|].
    apply String.eqb_refl.
Qed.

Lemma includes_false x l : includes x l = false ↔ x ∉ l.
Proof.
  rewrite <- includes_true. destruct (includes x l); split; congruence.
Qed.

Lemma elem_of_pull y x l : y ∈ pull x l ↔ y ∈ l ∧ y ≠ x.
Proof.
  unfold pull.
  rewrite !list_elem_of_In, filter_In, negb_true_iff, String.eqb_neq.
  reflexivity.
Qed.

Lemma elem_of_push y x l : y ∈ push x l ↔ y ∈ l ∨ y = x.
Proof. unfold push. by rewrite elem_of_app, list_elem_of_singleton. Qed.

Lemma elem_of_addToSet y x l : y ∈ addToSet x l ↔ y ∈ l ∨ y = x.
Proof.
  unfold addToSet. destruct (includes x l) eqn:E.
  - apply includes_true in E. split; [by left|]. intros [?| ->]; done.
  - apply elem_of_push.
Qed.

Lemma addToSet_held x l : x ∈ l → addToSet x l = l.
Proof. intros H. unfold addToSet. apply includes_true in H. by rewrite H. Qed.

End array_operators.

(** ** Votes *)

Lemma upvoteQuestion_fresh db user qid q :
  questions db !! qid = Some q →
  id user ∉ Question.upvotes q →
  questionController.upvoteQuestion db user qid =
    (User_update (Question.author q) (User.inc_reputation 10)
       (Question_save qid
          (Question.set_votes (push (id user) (Question.upvotes q))
             (pull (id user) (Question.downvotes q)) q) db),
     Json 200).
Proof.
  intros Hq Hu. unfold questionController.upvoteQuestion.
  rewrite Hq. apply includes_false in Hu. by rewrite Hu.
Qed.

Lemma downvoteQuestion_fresh db user qid q :
  questions db !! qid = Some q →
  id user ∉ Question.downvotes q →
  questionController.downvoteQuestion db user qid =
    (User_update (Question.author q) (User.inc_reputation (-2))
       (Question_save qid
          (Question.set_votes (pull (id user) (Question.upvotes q))
             (push (id user) (Question.downvotes q)) q) db),
     Json 200).
Proof.
  intros Hq Hu. unfold questionController.downvoteQuestion.
  rewrite Hq. apply includes_false in Hu. by rewrite Hu.
Qed.

Lemma upvoteAnswer_fresh db user aid a :
  answers db !! aid = Some a →
  id user ∉ Answer.upvotes a →
  answerController.upvoteAnswer db user aid =
    (User_update (Answer.author a) (User.inc_reputation 15)
       (Answer_save aid
          (Answer.set_votes (push (id user) (Answer.upvotes a))
             (pull (id user) (Answer.downvotes a)) a) db),
     Json 200).
Proof.
  intros Ha Hu. unfold answerController.upvoteAnswer.
  rewrite Ha. apply includes_false in Hu. by rewrite Hu.
Qed.

Lemma downvoteAnswer_fresh db user aid a :
  answers db !! aid = Some a →
  id user ∉ Answer.downvotes a →
  answerController.downvoteAnswer db user aid =
    (User_update (Answer.author a) (User.inc_reputation (-5))
       (Answer_save aid
          (Answer.set_votes (pull (id user) (Answer.upvotes a))
             (push (id user) (Answer.downvotes a)) a) db),
     Json 200).
Proof.
  intros Ha Hu. unfold answerController.downvoteAnswer.
  rewrite Ha. apply includes_false in Hu. by rewrite Hu.
Qed.

Ltac store_unfold :=
  repeat progress
    (unfold User_update, Question_update, Topic_update, Answer_save,
       Answer_post_save, Question_save, Question_post_save,
       Answer_unfeature_others, with_users, with_questions, with_answers,
       with_topics in *;
     cbn [users questions answers topics fst snd] in *).

(** C1, as stated, fails: in [sample.db_down] the user [u2] is in the
    downvoters of the question [q] of [u1]; the upvote of [u2] succeeds and
    moves [u2] to the upvoters, and the reputation of [u1] goes from -2 to
    8, which is +10 and not +12.  In the other direction, from
    [sample.db_up], it goes from 10 to 8, which is -2 and not -12. *)
Lemma question_reversal_delta_is_not_12 :
  vote_sets question_kind sample.db_down "q" = Some ([], ["u2"])
  ∧ snd (vote question_kind up sample.db_down sample.U2 "q") = Json 200
  ∧ vote_sets question_kind
      (fst (vote question_kind up sample.db_down sample.U2 "q")) "q"
    = Some (["u2"], [])
  ∧ reputation_of sample.db_down "u1" = Some (-2)
  ∧ reputation_of (fst (vote question_kind up sample.db_down sample.U2 "q")) "u1"
    = Some 8
  ∧ 8 ≠ -2 + 12
  ∧ vote_sets question_kind sample.db_up "q" = Some (["u2"], [])
  ∧ snd (vote question_kind down sample.db_up sample.U2 "q") = Json 200
  ∧ reputation_of sample.db_up "u1" = Some 10
  ∧ reputation_of (fst (vote question_kind down sample.db_up sample.U2 "q")) "u1"
    = Some 8
  ∧ 8 ≠ 10 + -12.
Proof. vm_compute. repeat split; congruence. Qed.

(** C1 (amended): for every question Q with author W and every user U in
    the vote set of Q opposite to the requested direction, the vote request
    of U succeeds, removes U from that set, adds U to the set of the
    requested direction, and changes the reputation of W by the flat delta
    of the requested direction, +10 for an upvote and -2 for a downvote:
    the same as a vote from neutral. *)
Theorem question_reversal_flat_delta (dir : Direction) (db : Db)
    (user : ReqUser) (qid : ObjectId) (q : Question.doc) (w : User.doc) :
  questions db !! qid = Some q →
  users db !! Question.author q = Some w →
  id user ∈ voters (opposite dir) (Question.upvotes q, Question.downvotes q) →
  id user ∉ voters dir (Question.upvotes q, Question.downvotes q) →
  ∃ db' q' w',
    vote question_kind dir db user qid = (db', Json 200)
    ∧ questions db' !! qid = Some q'
    ∧ (id user ∉ voters (opposite dir) (Question.upvotes q', Question.downvotes q'))
    ∧ id user ∈ voters dir (Question.upvotes q', Question.downvotes q')
    ∧ users db' !! Question.author q = Some w'
    ∧ User.reputation w' =
        User.reputation w + (match dir with up => 10 | down => -2 end).
Proof.
  intros Hq Hw Hopp Hdir. destruct dir; cbn [voters opposite fst snd vote] in *.
  - rewrite (upvoteQuestion_fresh _ _ _ _ Hq Hdir).
    eexists _, _, _. split; [reflexivity|]. store_unfold.
    rewrite lookup_insert_eq. split; [reflexivity|].
    cbn [Question.set_votes Question.upvotes Question.downvotes Question.author].
    rewrite !lookup_alter_eq, Hw.
    rewrite elem_of_pull, elem_of_push. repeat split; [tauto|by right].
  - rewrite (downvoteQuestion_fresh _ _ _ _ Hq Hdir).
    eexists _, _, _. split; [reflexivity|]. store_unfold.
    rewrite lookup_insert_eq. split; [reflexivity|].
    cbn [Question.set_votes Question.upvotes Question.downvotes Question.author].
    rewrite !lookup_alter_eq, Hw.
    rewrite elem_of_pull, elem_of_push. repeat split; [tauto|by right].
Qed.

Lemma question_reversal_flat_delta_witness :
  ∃ db' q' w',
    vote question_kind up sample.db_down sample.U2 "q" = (db', Json 200)
    ∧ questions db' !! "q" = Some q'
    ∧ ("u2" ∉ Question.downvotes q')
    ∧ "u2" ∈ Question.upvotes q'
    ∧ users db' !! "u1" = Some w'
    ∧ User.reputation w' = -2 + 10.
Proof.
  apply (question_reversal_flat_delta up sample.db_down sample.U2 "q"
           (Question.mk "u1" [] ["u2"] 0 2 false None)
           (User.mk "user" (-2) 1 0 [] [] [] [])).
  - vm_compute. reflexivity.
  - vm_compute. reflexivity.
  - simpl. apply list_elem_of_singleton. reflexivity.
  - simpl. apply not_elem_of_nil.
Defined.

(** C3: when U is already in the vote set of the requested direction of an
    entity (question or answer), the vote request is answered with the 400
    error "already upvoted / downvoted" (the Conflict of the error
    taxonomy) and the store it leaves is the store it found: both vote sets
    and every reputation are unchanged. *)
Theorem repeated_vote_conflict (kind : Kind) (dir : Direction) (db : Db)
    (user : ReqUser) (eid : ObjectId) (sets : list ObjectId * list ObjectId) :
  vote_sets kind db eid = Some sets →
  id user ∈ voters dir sets →
  ∃ message, vote kind dir db user eid = (db, Next (AppError message 400)).
Proof.
  intros Hsets Hin.
  destruct kind, dir; cbn [vote vote_sets voters] in *;
    [ unfold questionController.upvoteQuestion
    | unfold questionController.downvoteQuestion
    | unfold answerController.upvoteAnswer
    | unfold answerController.downvoteAnswer ];
    match goal with
    | H : _ <$> ?m !! ?i = Some _ |- _ =>
        destruct (m !! i) as [e|]; [|discriminate H];
        injection H as <-
    end;
    cbn [fst snd] in Hin; apply includes_true in Hin; rewrite Hin; eauto.
Qed.

Lemma repeated_vote_conflict_witness :
  ∃ message,
    vote question_kind up sample.db_up sample.U2 "q"
    = (sample.db_up, Next (AppError message 400)).
Proof.
  apply (repeated_vote_conflict question_kind up sample.db_up sample.U2 "q"
           (["u2"], [])).
  - vm_compute. reflexivity.
  - simpl. apply list_elem_of_singleton. reflexivity.
Defined.

(** How the vote sets of one entity change when a vote request is served:
    not at all, or by the vote cast. *)
Lemma vote_sets_serve_vote (r : VoteRequest) (db : Db) (kind : Kind)
    (eid : ObjectId) :
  vote_sets kind (serve_vote db r) eid = vote_sets kind db eid
  ∨ ∃ sets, vote_sets kind db eid = Some sets
      ∧ vote_sets kind (serve_vote db r) eid
        = Some (cast (vr_dir r) (id (vr_user r)) sets).
Proof.
  destruct r as [k d u e]. unfold serve_vote. cbn [vr_kind vr_dir vr_user vr_entity].
  destruct k, d; cbn [vote];
    [ unfold questionController.upvoteQuestion
    | unfold questionController.downvoteQuestion
    | unfold answerController.upvoteAnswer
    | unfold answerController.downvoteAnswer ];
    match goal with
    | |- context [match ?m !! e with _ => _ end] =>
        destruct (m !! e) as [x|] eqn:He; [|by left]
    end;
    match goal with
    | |- context [if ?b then _ else _] => destruct b; [by left|]
    end;
    destruct kind; store_unfold; cbn [vote_sets cast]; store_unfold.
  all: try (left; reflexivity).
  all: try (destruct (decide (e = eid)) as [->|Hne];
            [ right; rewrite He; eexists; split; [reflexivity|];
              by rewrite lookup_insert_eq
            | left; by rewrite lookup_insert_ne ]).
  all: left; rewrite lookup_alter; case_decide; [subst|done];
       by destruct (questions db !! _).
Qed.

Lemma cast_exclusive (dir : Direction) (u : ObjectId)
    (sets : list ObjectId * list ObjectId) :
  exclusive sets → exclusive (cast dir u sets).
Proof.
  intros Hex x. specialize (Hex x). destruct sets as [ups downs].
  destruct dir; cbn [cast fst snd] in *;
    rewrite elem_of_pull, elem_of_push; tauto.
Qed.

Lemma serve_votes_exclusive (kind : Kind) (eid : ObjectId)
    (rs : list VoteRequest) :
  ∀ db sets,
    vote_sets kind db eid = Some sets → exclusive sets →
    ∃ sets', vote_sets kind (serve_votes db rs) eid = Some sets'
             ∧ exclusive sets'.
Proof.
  induction rs as [|r rs IH]; intros db sets Hsets Hex.
  - exists sets. by split.
  - cbn [serve_votes foldl]. fold (serve_votes (serve_vote db r) rs).
    destruct (vote_sets_serve_vote r db kind eid) as [Hsame|(s & Hs & Hcast)].
    + apply (IH _ sets); [congruence|done].
    + apply (IH _ _ Hcast). apply cast_exclusive.
      rewrite Hsets in Hs. by injection Hs as <-.
Qed.

(** C4: for a question or an answer whose two vote sets are empty, after
    any sequence of upvote and downvote requests (by any users, on this or
    on any other entity) the entity still has its two vote sets and no user
    is in both of them. *)
Theorem vote_sets_mutually_exclusive (kind : Kind) (db : Db) (eid : ObjectId)
    (rs : list VoteRequest) :
  vote_sets kind db eid = Some ([], []) →
  ∃ ups downs,
    vote_sets kind (serve_votes db rs) eid = Some (ups, downs)
    ∧ ∀ u, ¬ (u ∈ ups ∧ u ∈ downs).
Proof.
  intros Hempty.
  destruct (serve_votes_exclusive kind eid rs db _ Hempty)
    as ([ups downs] & Hsets & Hex).
  - intros u [Hu _]. by apply not_elem_of_nil in Hu.
  - exists ups, downs. split; [done|]. exact Hex.
Qed.

Lemma vote_sets_mutually_exclusive_witness :
  ∃ ups downs,
    vote_sets answer_kind
      (serve_votes sample.db0
         [mkVoteRequest answer_kind up sample.U2 "a1";
          mkVoteRequest answer_kind down sample.U1 "a1";
          mkVoteRequest question_kind up sample.U2 "q";
          mkVoteRequest answer_kind down sample.U2 "a1";
          mkVoteRequest answer_kind down sample.U2 "a1"]) "a1"
    = Some (ups, downs)
    ∧ ∀ u, ¬ (u ∈ ups ∧ u ∈ downs).
Proof.
  apply (vote_sets_mutually_exclusive answer_kind sample.db0 "a1").
  vm_compute. reflexivity.
Defined.

(** A vote from neutral on an answer: the author gets the 5 points of the
    post-save hook on top of the delta of the handler. *)
Lemma answer_vote_from_neutral (dir : Direction) (db : Db) (user : ReqUser)
    (aid : ObjectId) (a : Answer.doc) (w : User.doc) :
  answers db !! aid = Some a →
  users db !! Answer.author a = Some w →
  id user ∉ Answer.upvotes a →
  id user ∉ Answer.downvotes a →
  ∃ db' w',
    vote answer_kind dir db user aid = (db', Json 200)
    ∧ users db' !! Answer.author a = Some w'
    ∧ User.reputation w' =
        User.reputation w + 5 + (match dir with up => 15 | down => -5 end).
Proof.
  intros Ha Hw Hup Hdown. destruct dir; cbn [vote].
  - rewrite (upvoteAnswer_fresh _ _ _ _ Ha Hup).
    eexists _, _. split; [reflexivity|]. store_unfold.
    cbn [Answer.set_votes Answer.author].
    rewrite !lookup_alter_eq, Hw. split; reflexivity.
  - rewrite (downvoteAnswer_fresh _ _ _ _ Ha Hdown).
    eexists _, _. split; [reflexivity|]. store_unfold.
    cbn [Answer.set_votes Answer.author].
    rewrite !lookup_alter_eq, Hw. split; reflexivity.
Qed.

(** C2, checked on the code at [sample.db0]: nobody has voted on the
    answer [a1] of [u3], whose reputation is 0.  The upvote of [u2]
    succeeds and leaves the reputation of [u3] at 20, not at 15; the
    downvote of [u2] succeeds and leaves it at 0, not at -5.  The 5 points
    that accompany either vote are those of [answerSchema.post('save')]. *)
Theorem answer_vote_reputation_at_sample :
  vote_sets answer_kind sample.db0 "a1" = Some ([], [])
  ∧ author_of answer_kind sample.db0 "a1" = Some "u3"
  ∧ reputation_of sample.db0 "u3" = Some 0
  ∧ snd (vote answer_kind up sample.db0 sample.U2 "a1") = Json 200
  ∧ reputation_of (fst (vote answer_kind up sample.db0 sample.U2 "a1")) "u3"
    = Some 20
  ∧ snd (vote answer_kind down sample.db0 sample.U2 "a1") = Json 200
  ∧ reputation_of (fst (vote answer_kind down sample.db0 sample.U2 "a1")) "u3"
    = Some 0.
Proof. vm_compute. repeat split; reflexivity. Qed.

(** ** Featuring an answer *)

Lemma featureAnswer_allowed db user aid a q :
  answers db !! aid = Some a →
  questions db !! Answer.question a = Some q →
  may_feature user q = true →
  answerController.featureAnswer db user aid =
    (User_update (Answer.author a)
       (fun u => User.upd_badges (addToSet "featured-answer")
                   (User.inc_reputation 50 u))
       (Question_update (Answer.question a) (Question.set_featured aid)
          (Answer_save aid (Answer.set_isFeatured true a)
             (Answer_unfeature_others (Answer.question a) aid db))),
     Json 200).
Proof.
  intros Ha Hq Hmay. unfold answerController.featureAnswer.
  rewrite Ha, Hq. unfold may_feature in Hmay.
  destruct (String.eqb (Question.author q) (id user));
    destruct (String.eqb (User.role (doc user)) "admin");
    try discriminate Hmay; reflexivity.
Qed.

Section feature_effect.
Context (db : Db) (user : ReqUser) (aid : ObjectId) (a : Answer.doc)
  (q : Question.doc).
Hypothesis Ha : answers db !! aid = Some a.
Hypothesis Hq : questions db !! Answer.question a = Some q.
Hypothesis Hmay : may_feature user q = true.

Let db' := fst (answerController.featureAnswer db user aid).

Lemma feature_response :
  snd (answerController.featureAnswer db user aid) = Json 200.
Proof. by rewrite (featureAnswer_allowed _ _ _ _ _ Ha Hq Hmay). Qed.

Lemma feature_target : answers db' !! aid = Some (Answer.set_isFeatured true a).
Proof.
  unfold db'. rewrite (featureAnswer_allowed _ _ _ _ _ Ha Hq Hmay).
  store_unfold. by rewrite lookup_insert_eq.
Qed.

Lemma feature_others i :
  i ≠ aid →
  answers db' !! i =
    (fun d => if String.eqb (Answer.question d) (Answer.question a)
              then Answer.set_isFeatured false d else d) <$> answers db !! i.
Proof.
  intros Hne. unfold db'. rewrite (featureAnswer_allowed _ _ _ _ _ Ha Hq Hmay).
  store_unfold. rewrite lookup_insert_ne by done.
  rewrite map_lookup_imap. destruct (answers db !! i) as [d|]; [|done].
  cbn. apply String.eqb_neq in Hne. rewrite Hne.
  by rewrite andb_true_r.
Qed.

Lemma feature_question :
  questions db' !! Answer.question a =
    Some (Question.set_featured aid (Question.inc_answersCount 1 q)).
Proof.
  unfold db'. rewrite (featureAnswer_allowed _ _ _ _ _ Ha Hq Hmay).
  store_unfold. cbn [Answer.set_isFeatured Answer.question].
  by rewrite !lookup_alter_eq, Hq.
Qed.

Lemma feature_author w :
  users db !! Answer.author a = Some w →
  users db' !! Answer.author a =
    Some (User.upd_badges (addToSet "featured-answer")
            (User.inc_reputation 50
               (User.inc_reputation 5 (User.inc_answersCount 1 w)))).
Proof.
  intros Hw. unfold db'. rewrite (featureAnswer_allowed _ _ _ _ _ Ha Hq Hmay).
  store_unfold. cbn [Answer.set_isFeatured Answer.author].
  by rewrite !lookup_alter_eq, Hw.
Qed.

Lemma feature_other_users i :
  i ≠ Answer.author a → users db' !! i = users db !! i.
Proof.
  intros Hne. unfold db'. rewrite (featureAnswer_allowed _ _ _ _ _ Ha Hq Hmay).
  store_unfold. cbn [Answer.set_isFeatured Answer.author].
  by rewrite !lookup_alter_ne.
Qed.
End feature_effect.

(** C5: for a question Q with distinct answers A1 and A2, featuring A1 and
    then A2 (each time by the author of Q or an admin) succeeds both times,
    and afterwards an answer of Q has [isFeatured = true] exactly when it
    is A2, [Q.featuredAnswer] is A2 and [Q.isAnswered] is true. *)
Theorem featured_exclusive (db : Db) (user1 user2 : ReqUser)
    (qid a1 a2 : ObjectId) (q : Question.doc) (A1 A2 : Answer.doc) :
  a1 ≠ a2 →
  questions db !! qid = Some q →
  answers db !! a1 = Some A1 → Answer.question A1 = qid →
  answers db !! a2 = Some A2 → Answer.question A2 = qid →
  may_feature user1 q = true →
  may_feature user2 q = true →
  let r1 := answerController.featureAnswer db user1 a1 in
  let r2 := answerController.featureAnswer (fst r1) user2 a2 in
  snd r1 = Json 200 ∧ snd r2 = Json 200
  ∧ (∀ i a, answers (fst r2) !! i = Some a → Answer.question a = qid →
            (Answer.isFeatured a = true ↔ i = a2))
  ∧ (∃ a, answers (fst r2) !! a2 = Some a ∧ Answer.question a = qid
          ∧ Answer.isFeatured a = true)
  ∧ (∃ q', questions (fst r2) !! qid = Some q'
           ∧ Question.featuredAnswer q' = Some a2
           ∧ Question.isAnswered q' = true).
Proof.
  intros Hne Hq HA1 HqA1 HA2 HqA2 Hmay1 Hmay2 r1 r2.
  rewrite <- HqA1 in Hq.
  pose proof (feature_response db user1 a1 A1 q HA1 Hq Hmay1) as Hr1.
  pose proof (feature_others db user1 a1 A1 q HA1 Hq Hmay1 a2 (not_eq_sym Hne)) as H2.
  pose proof (feature_question db user1 a1 A1 q HA1 Hq Hmay1) as Hq1.
  fold r1 in Hr1, H2, Hq1. rewrite HA2 in H2. cbn [fmap option_fmap option_map] in H2.
  assert (Answer.question A2 = Answer.question A1) as E by congruence.
  rewrite E, String.eqb_refl in H2.
  set (A2' := Answer.set_isFeatured false A2) in *.
  set (q1 := Question.set_featured a1 (Question.inc_answersCount 1 q)) in *.
  assert (questions (fst r1) !! Answer.question A2' = Some q1) as Hq1'.
  { cbn [A2' Answer.set_isFeatured Answer.question]. by rewrite E. }
  assert (may_feature user2 q1 = true) as Hmay2' by exact Hmay2.
  pose proof (feature_response _ user2 a2 A2' q1 H2 Hq1' Hmay2') as Hr2.
  pose proof (feature_target _ user2 a2 A2' q1 H2 Hq1' Hmay2') as Ht.
  pose proof (feature_others _ user2 a2 A2' q1 H2 Hq1' Hmay2') as Ho.
  pose proof (feature_question _ user2 a2 A2' q1 H2 Hq1' Hmay2') as Hq2.
  fold r2 in Hr2, Ht, Ho, Hq2.
  cbn [A2' Answer.set_isFeatured Answer.question] in Ho, Hq2.
  rewrite E, HqA1 in Ho, Hq2.
  split; [done|]. split; [done|]. split; [|split].
  - intros i a Hi Hqa. destruct (decide (i = a2)) as [->|Hi2].
    + rewrite Ht in Hi. injection Hi as <-. done.
    + rewrite (Ho i Hi2) in Hi.
      destruct (answers (fst r1) !! i) as [d|]; [|discriminate Hi].
      cbn in Hi. injection Hi as <-.
      destruct (String.eqb (Answer.question d) qid) eqn:Ed.
      * cbn. split; [discriminate|done].
      * apply String.eqb_neq in Ed. done.
  - eexists. split; [exact Ht|]. cbn. split; [congruence|done].
  - eexists. split; [exact Hq2|]. by cbn.
Qed.

Lemma featured_exclusive_witness :
  let r1 := answerController.featureAnswer sample.db0 sample.U1 "a1" in
  let r2 := answerController.featureAnswer (fst r1) sample.U1 "a2" in
  snd r1 = Json 200 ∧ snd r2 = Json 200
  ∧ (∀ i a, answers (fst r2) !! i = Some a → Answer.question a = "q" →
            (Answer.isFeatured a = true ↔ i = "a2"))
  ∧ (∃ a, answers (fst r2) !! "a2" = Some a ∧ Answer.question a = "q"
          ∧ Answer.isFeatured a = true)
  ∧ (∃ q', questions (fst r2) !! "q" = Some q'
           ∧ Question.featuredAnswer q' = Some "a2"
           ∧ Question.isAnswered q' = true).
Proof.
  apply (featured_exclusive sample.db0 sample.U1 sample.U1 "q" "a1" "a2"
           (Question.mk "u1" [] [] 0 2 false None)
           (Answer.mk "first" "q" "u3" [] [] false)
           (Answer.mk "second" "q" "u4" [] [] false)).
  - discriminate.
  - vm_compute. reflexivity.
  - vm_compute. reflexivity.
  - reflexivity.
  - vm_compute. reflexivity.
  - reflexivity.
  - vm_compute. reflexivity.
  - vm_compute. reflexivity.
Defined.

(** C6, checked on the code at [sample.db0]: the author [u1] of the
    question features the answer [a1] of [u3], then the answer [a2] of
    [u4], then [a1] again.  Every call succeeds.  The first leaves the
    reputation of [u3] at 55, not at 50: the 5 points come from
    [answerSchema.post('save')], which runs on the [save()] of
    [featureAnswer].  The second leaves [u3] at 55 (nothing is reversed)
    and [u4] at 55.  After the third [u3] holds the badge once. *)
Theorem feature_credit_at_sample :
  let r1 := answerController.featureAnswer sample.db0 sample.U1 "a1" in
  let r2 := answerController.featureAnswer (fst r1) sample.U1 "a2" in
  let r3 := answerController.featureAnswer (fst r2) sample.U1 "a1" in
  reputation_of sample.db0 "u3" = Some 0
  ∧ snd r1 = Json 200
  ∧ reputation_of (fst r1) "u3" = Some 55
  ∧ User.badges <$> users (fst r1) !! "u3" = Some ["featured-answer"]
  ∧ snd r2 = Json 200
  ∧ reputation_of (fst r2) "u3" = Some 55
  ∧ reputation_of (fst r2) "u4" = Some 55
  ∧ snd r3 = Json 200
  ∧ User.badges <$> users (fst r3) !! "u3" = Some ["featured-answer"].
Proof. vm_compute. repeat split; reflexivity. Qed.

(** What holds of the credit on every input: the badge list of the author
    is unchanged when the badge is already held, and featuring an answer
    leaves the reputation of everybody but its author alone. *)
Lemma feature_badge_held db user aid a q w :
  answers db !! aid = Some a →
  questions db !! Answer.question a = Some q →
  may_feature user q = true →
  users db !! Answer.author a = Some w →
  "featured-answer" ∈ User.badges w →
  User.badges <$> users (fst (answerController.featureAnswer db user aid))
                    !! Answer.author a
  = Some (User.badges w).
Proof.
  intros Ha Hq Hmay Hw Hheld.
  rewrite (feature_author db user aid a q Ha Hq Hmay w Hw). cbn.
  by rewrite addToSet_held.
Qed.

Lemma feature_credit_kept db user aid a q i :
  answers db !! aid = Some a →
  questions db !! Answer.question a = Some q →
  may_feature user q = true →
  i ≠ Answer.author a →
  reputation_of (fst (answerController.featureAnswer db user aid)) i
  = reputation_of db i.
Proof.
  intros Ha Hq Hmay Hne. unfold reputation_of.
  by rewrite (feature_other_users db user aid a q Ha Hq Hmay i Hne).
Qed.

(** C9: featuring is not guarded against repetition.  When the author of
    the question (or an admin) features an answer A, A is featured; a second
    request to feature A succeeds as well (it is answered 200, not with an
    error) and the reputation of the author of A is credited again: each of
    the two calls adds 5 + 50 to it. *)
Theorem feature_again_credits_again (db : Db) (user : ReqUser)
    (aid : ObjectId) (a : Answer.doc) (q : Question.doc) (w : User.doc) :
  answers db !! aid = Some a →
  questions db !! Answer.question a = Some q →
  may_feature user q = true →
  users db !! Answer.author a = Some w →
  let r1 := answerController.featureAnswer db user aid in
  let r2 := answerController.featureAnswer (fst r1) user aid in
  snd r1 = Json 200
  ∧ Answer.isFeatured <$> answers (fst r1) !! aid = Some true
  ∧ snd r2 = Json 200
  ∧ ∃ w1 w2,
      users (fst r1) !! Answer.author a = Some w1
      ∧ users (fst r2) !! Answer.author a = Some w2
      ∧ User.reputation w1 = User.reputation w + 5 + 50
      ∧ User.reputation w2 = User.reputation w1 + 5 + 50
      ∧ User.reputation w2 ≠ User.reputation w1.
Proof.
  intros Ha Hq Hmay Hw r1 r2.
  pose proof (feature_response db user aid a q Ha Hq Hmay) as Hr1.
  pose proof (feature_target db user aid a q Ha Hq Hmay) as Ht1.
  pose proof (feature_question db user aid a q Ha Hq Hmay) as Hq1.
  pose proof (feature_author db user aid a q Ha Hq Hmay w Hw) as Hw1.
  fold r1 in Hr1, Ht1, Hq1, Hw1.
  set (a' := Answer.set_isFeatured true a) in *.
  set (q1 := Question.set_featured aid (Question.inc_answersCount 1 q)) in *.
  assert (questions (fst r1) !! Answer.question a' = Some q1) as Hq1' by exact Hq1.
  assert (may_feature user q1 = true) as Hmay' by exact Hmay.
  pose proof (feature_response _ user aid a' q1 Ht1 Hq1' Hmay') as Hr2.
  pose proof (feature_author _ user aid a' q1 Ht1 Hq1' Hmay' _ Hw1) as Hw2.
  fold r2 in Hr2, Hw2.
  split; [done|]. split; [by rewrite Ht1|]. split; [done|].
  eexists _, _. split; [exact Hw1|]. split; [exact Hw2|].
  cbn. repeat split; lia.
Qed.

Lemma feature_again_credits_again_witness :
  let r1 := answerController.featureAnswer sample.db0 sample.U1 "a1" in
  let r2 := answerController.featureAnswer (fst r1) sample.U1 "a1" in
  snd r1 = Json 200
  ∧ Answer.isFeatured <$> answers (fst r1) !! "a1" = Some true
  ∧ snd r2 = Json 200
  ∧ ∃ w1 w2,
      users (fst r1) !! "u3" = Some w1
      ∧ users (fst r2) !! "u3" = Some w2
      ∧ User.reputation w1 = 0 + 5 + 50
      ∧ User.reputation w2 = User.reputation w1 + 5 + 50
      ∧ User.reputation w2 ≠ User.reputation w1.
Proof.
  apply (feature_again_credits_again sample.db0 sample.U1 "a1"
           (Answer.mk "first" "q" "u3" [] [] false)
           (Question.mk "u1" [] [] 0 2 false None) sample.member).
  - vm_compute. reflexivity.
  - vm_compute. reflexivity.
  - vm_compute. reflexivity.
  - vm_compute. reflexivity.
Defined.

(** ** Every save of an answer runs the post-save hook *)

(** C10: every request that saves an answer document ([createAnswer],
    [upvoteAnswer], [downvoteAnswer], [featureAnswer]: the requests that
    are answered with a success status) leaves the saved answer in the
    store, the [answersCount] of its question one higher than before and
    the [answersCount] of its author one higher than before. *)
Theorem answer_save_bumps_answersCount (r : AnswerSave) (db : Db)
    (user : ReqUser) (status : Z) :
  snd (serve_answer db user r) = Json status →
  let db' := fst (serve_answer db user r) in
  ∃ a, answers db' !! saved_id r = Some a
    ∧ (∀ q, questions db !! Answer.question a = Some q →
         ∃ q', questions db' !! Answer.question a = Some q'
               ∧ Question.answersCount q' = Question.answersCount q + 1)
    ∧ (∀ w, users db !! Answer.author a = Some w →
         ∃ w', users db' !! Answer.author a = Some w'
               ∧ User.answersCount w' = User.answersCount w + 1).
Proof.
  intros Hok db'. subst db'.
  destruct r as [i body|i|i|i]; cbn [serve_answer saved_id] in *.
  - unfold answerController.createAnswer in *.
    destruct (questions db !! _) as [q0|]; [|discriminate Hok].
    destruct (String.eqb _ ""); [discriminate Hok|].
    store_unfold. eexists. split; [by rewrite lookup_insert_eq|].
    split; [intros q Hq|intros w Hw];
      rewrite !lookup_alter_eq, ?Hq, ?Hw; eexists; split; reflexivity.
  - unfold answerController.upvoteAnswer in *.
    destruct (answers db !! i) as [a|]; [|discriminate Hok].
    destruct (includes _ _); [discriminate Hok|].
    store_unfold. eexists. split; [by rewrite lookup_insert_eq|].
    split; [intros q Hq|intros w Hw];
      rewrite !lookup_alter_eq, ?Hq, ?Hw; eexists; split; reflexivity.
  - unfold answerController.downvoteAnswer in *.
    destruct (answers db !! i) as [a|]; [|discriminate Hok].
    destruct (includes _ _); [discriminate Hok|].
    store_unfold. eexists. split; [by rewrite lookup_insert_eq|].
    split; [intros q Hq|intros w Hw];
      rewrite !lookup_alter_eq, ?Hq, ?Hw; eexists; split; reflexivity.
  - unfold answerController.featureAnswer in *.
    destruct (answers db !! i) as [a|]; [|discriminate Hok].
    destruct (questions db !! _) as [q0|]; [|discriminate Hok].
    destruct (_ && _); [discriminate Hok|].
    store_unfold. eexists. split; [by rewrite lookup_insert_eq|].
    split; [intros q Hq|intros w Hw];
      rewrite !lookup_alter_eq, ?Hq, ?Hw; eexists; split; reflexivity.
Qed.

Lemma answer_save_bumps_answersCount_witness :
  let db' := fst (serve_answer sample.db0 sample.U2 (by_upvoteAnswer "a1")) in
  ∃ a, answers db' !! "a1" = Some a
    ∧ (∀ q, questions sample.db0 !! Answer.question a = Some q →
         ∃ q', questions db' !! Answer.question a = Some q'
               ∧ Question.answersCount q' = Question.answersCount q + 1)
    ∧ (∀ w, users sample.db0 !! Answer.author a = Some w →
         ∃ w', users db' !! Answer.author a = Some w'
               ∧ User.answersCount w' = User.answersCount w + 1).
Proof.
  apply (answer_save_bumps_answersCount (by_upvoteAnswer "a1") sample.db0
           sample.U2 200).
  vm_compute. reflexivity.
Defined.

(** ** The follow graph *)

Lemma follows_list db a b : follows db a b ↔ b ∈ user_list User.following db a.
Proof.
  unfold follows, user_list. destruct (users db !! a) as [u|]; cbn.
  - split; [by intros (? & [= <-] & ?)|eauto].
  - split; [by intros (? & ? & ?)|by intros ?%elem_of_nil].
Qed.

Lemma followed_by_list db b a :
  followed_by db b a ↔ a ∈ user_list User.followers db b.
Proof.
  unfold followed_by, user_list. destruct (users db !! b) as [u|]; cbn.
  - split; [by intros (? & [= <-] & ?)|eauto].
  - split; [by intros (? & ? & ?)|by intros ?%elem_of_nil].
Qed.

Lemma follows_topic_list db a t :
  follows_topic db a t ↔ t ∈ user_list User.followingTopics db a.
Proof.
  unfold follows_topic, user_list. destruct (users db !! a) as [u|]; cbn.
  - split; [by intros (? & [= <-] & ?)|eauto].
  - split; [by intros (? & ? & ?)|by intros ?%elem_of_nil].
Qed.

Lemma topic_followed_by_list db t a :
  topic_followed_by db t a ↔ a ∈ topic_list db t.
Proof.
  unfold topic_followed_by, topic_list. destruct (topics db !! t) as [d|]; cbn.
  - split; [by intros (? & [= <-] & ?)|eauto].
  - split; [by intros (? & ? & ?)|by intros ?%elem_of_nil].
Qed.

Lemma follow_symmetric_lists db :
  follow_symmetric db ↔
    (∀ a b, b ∈ user_list User.following db a ↔ a ∈ user_list User.followers db b)
    ∧ (∀ a t, t ∈ user_list User.followingTopics db a ↔ a ∈ topic_list db t).
Proof.
  unfold follow_symmetric.
  setoid_rewrite follows_list. setoid_rewrite followed_by_list.
  setoid_rewrite follows_topic_list. setoid_rewrite topic_followed_by_list.
  reflexivity.
Qed.

(** The lists after an update of one user document *)
Lemma user_list_update proj f i db x :
  user_list proj (User_update i f db) x =
    if decide (i = x) then from_option (fun u => proj (f u)) [] (users db !! x)
    else user_list proj db x.
Proof.
  unfold user_list. store_unfold. rewrite lookup_alter.
  case_decide; [subst i|done]. by destruct (users db !! x).
Qed.

Lemma topic_list_update f i db t :
  topic_list (Topic_update i f db) t =
    if decide (i = t)
    then from_option (fun d => Topic.followers (f d)) [] (topics db !! t)
    else topic_list db t.
Proof.
  unfold topic_list. store_unfold. rewrite lookup_alter.
  case_decide; [subst i|done]. by destruct (topics db !! t).
Qed.

Lemma user_list_update_same proj f i db x :
  (∀ u, proj (f u) = proj u) →
  user_list proj (User_update i f db) x = user_list proj db x.
Proof.
  intros Hf. rewrite user_list_update. case_decide; [|done].
  unfold user_list. destruct (users db !! x); cbn; [apply Hf|done].
Qed.

Lemma user_list_update_at proj f g i db x :
  is_Some (users db !! i) →
  (∀ u, proj (f u) = g (proj u)) →
  user_list proj (User_update i f db) x =
    if decide (i = x) then g (user_list proj db x) else user_list proj db x.
Proof.
  intros [u Hu] Hf. rewrite user_list_update. case_decide; [subst i|done].
  unfold user_list. rewrite Hu. cbn. apply Hf.
Qed.

Lemma topic_list_update_at f g i db t :
  is_Some (topics db !! i) →
  (∀ d, Topic.followers (f d) = g (Topic.followers d)) →
  topic_list (Topic_update i f db) t =
    if decide (i = t) then g (topic_list db t) else topic_list db t.
Proof.
  intros [d Hd] Hf. rewrite topic_list_update. case_decide; [subst i|done].
  unfold topic_list. rewrite Hd. cbn. apply Hf.
Qed.

Lemma user_list_Topic_update proj f i db x :
  user_list proj (Topic_update i f db) x = user_list proj db x.
Proof. reflexivity. Qed.

Lemma topic_list_User_update f i db t :
  topic_list (User_update i f db) t = topic_list db t.
Proof. reflexivity. Qed.

Lemma User_update_is_Some i f db j :
  is_Some (users db !! j) → is_Some (users (User_update i f db) !! j).
Proof.
  intros H. unfold User_update, with_users. cbn [users].
  by apply lookup_alter_is_Some.
Qed.

Lemma followUser_symmetric db a b :
  follow_symmetric db →
  follow_symmetric (fst (route userController.followUser db a b)).
Proof.
  unfold route, protect. destruct (users db !! a) as [u|] eqn:Hu; [|done].
  unfold userController.followUser. cbn [id doc].
  destruct (String.eqb a b); [done|].
  destruct (users db !! b) as [v|] eqn:Hv; [|done].
  destruct (includes b (User.following u)); [done|]. cbn [fst].
  rewrite !follow_symmetric_lists. intros [Hus Hts]. split.
  - intros x y.
    rewrite (user_list_update_same User.following) by done.
    rewrite (user_list_update_at User.following _ (addToSet b))
      by (by rewrite ?Hu).
    rewrite (user_list_update_at User.followers _ (addToSet a))
      by (by try apply User_update_is_Some; rewrite ?Hv).
    rewrite (user_list_update_same User.followers) by done.
    repeat case_decide; subst; rewrite ?elem_of_addToSet, Hus;
      intuition congruence.
  - intros x t. rewrite !(user_list_update_same User.followingTopics) by done.
    rewrite !topic_list_User_update. apply Hts.
Qed.

Lemma unfollowUser_symmetric db a b :
  follow_symmetric db →
  follow_symmetric (fst (route userController.unfollowUser db a b)).
Proof.
  unfold route, protect. destruct (users db !! a) as [u|] eqn:Hu; [|done].
  unfold userController.unfollowUser. cbn [id doc].
  destruct (String.eqb a b); [done|].
  destruct (users db !! b) as [v|] eqn:Hv; [|done].
  destruct (negb (includes b (User.following u))); [done|]. cbn [fst].
  rewrite !follow_symmetric_lists. intros [Hus Hts]. split.
  - intros x y.
    rewrite (user_list_update_same User.following) by done.
    rewrite (user_list_update_at User.following _ (pull b))
      by (by rewrite ?Hu).
    rewrite (user_list_update_at User.followers _ (pull a))
      by (by try apply User_update_is_Some; rewrite ?Hv).
    rewrite (user_list_update_same User.followers) by done.
    repeat case_decide; subst; rewrite ?elem_of_pull, Hus;
      intuition congruence.
  - intros x t. rewrite !(user_list_update_same User.followingTopics) by done.
    rewrite !topic_list_User_update. apply Hts.
Qed.

Lemma followTopic_symmetric db a t :
  follow_symmetric db →
  follow_symmetric (fst (route userController.followTopic db a t)).
Proof.
  unfold route, protect. destruct (users db !! a) as [u|] eqn:Hu; [|done].
  unfold userController.followTopic. cbn [id doc].
  destruct (topics db !! t) as [d|] eqn:Hd; [|done].
  destruct (includes t (User.followingTopics u)); [done|]. cbn [fst].
  rewrite !follow_symmetric_lists. intros [Hus Hts]. split.
  - intros x y. rewrite !user_list_Topic_update.
    rewrite (user_list_update_same User.following) by done.
    rewrite (user_list_update_same User.followers) by done.
    apply Hus.
  - intros x y. rewrite user_list_Topic_update.
    rewrite (user_list_update_at User.followingTopics _ (addToSet t))
      by (by rewrite ?Hu).
    rewrite (topic_list_update_at _ (addToSet a))
      by (by cbn [topics User_update with_users]; rewrite ?Hd).
    rewrite topic_list_User_update.
    repeat case_decide; subst; rewrite ?elem_of_addToSet, Hts;
      intuition congruence.
Qed.

Lemma unfollowTopic_symmetric db a t :
  follow_symmetric db →
  follow_symmetric (fst (route userController.unfollowTopic db a t)).
Proof.
  unfold route, protect. destruct (users db !! a) as [u|] eqn:Hu; [|done].
  unfold userController.unfollowTopic. cbn [id doc].
  destruct (topics db !! t) as [d|] eqn:Hd; [|done].
  destruct (negb (includes t (User.followingTopics u))); [done|]. cbn [fst].
  rewrite !follow_symmetric_lists. intros [Hus Hts]. split.
  - intros x y. rewrite !user_list_Topic_update.
    rewrite (user_list_update_same User.following) by done.
    rewrite (user_list_update_same User.followers) by done.
    apply Hus.
  - intros x y. rewrite user_list_Topic_update.
    rewrite (user_list_update_at User.followingTopics _ (pull t))
      by (by rewrite ?Hu).
    rewrite (topic_list_update_at _ (pull a))
      by (by cbn [topics User_update with_users]; rewrite ?Hd).
    rewrite topic_list_User_update.
    repeat case_decide; subst; rewrite ?elem_of_pull, Hts;
      intuition congruence.
Qed.

Lemma serve_follow_symmetric db r :
  follow_symmetric db → follow_symmetric (serve_follow db r).
Proof.
  destruct r; unfold serve_follow;
    auto using followUser_symmetric, unfollowUser_symmetric,
      followTopic_symmetric, unfollowTopic_symmetric.
Qed.

Lemma sample_db0_symmetric : follow_symmetric sample.db0.
Proof.
  assert (∀ a u, users sample.db0 !! a = Some u → u = sample.member) as Hu.
  { intros a u. unfold sample.db0. cbn [users].
    rewrite !lookup_insert_Some, lookup_empty. intuition congruence. }
  assert (∀ t d, topics sample.db0 !! t = Some d → Topic.followers d = []) as Ht.
  { intros t d. unfold sample.db0. cbn [topics].
    rewrite !lookup_insert_Some, lookup_empty.
    intros [[_ <-]|[_ ?]]; [reflexivity|discriminate]. }
  apply follow_symmetric_lists. unfold user_list, topic_list.
  split; intros a b.
  - destruct (users sample.db0 !! a) as [u|] eqn:Ea;
      destruct (users sample.db0 !! b) as [v|] eqn:Eb;
      try apply Hu in Ea; try apply Hu in Eb; subst; cbn;
      rewrite !elem_of_nil; reflexivity.
  - destruct (users sample.db0 !! a) as [u|] eqn:Ea;
      destruct (topics sample.db0 !! b) as [d|] eqn:Eb;
      try apply Hu in Ea; try apply Ht in Eb; subst; cbn; rewrite ?Eb;
      rewrite !elem_of_nil; reflexivity.
Qed.

(** C7: starting from a store in which the follow relations are mirrored
    (A's [following] contains B exactly when B's [followers] contains A,
    and A's [followingTopics] contains T exactly when T's [followers]
    contains A), they are mirrored again after any sequence of followUser,
    unfollowUser, followTopic and unfollowTopic requests, served one after
    the other. *)
Theorem follow_symmetry_preserved (db : Db) (rs : list FollowRequest) :
  follow_symmetric db → follow_symmetric (serve_follows db rs).
Proof.
  revert db. induction rs as [|r rs IH]; intros db Hsym; [exact Hsym|].
  cbn [serve_follows foldl]. apply IH. by apply serve_follow_symmetric.
Qed.

Lemma follow_symmetry_preserved_witness :
  follow_symmetric
    (serve_follows sample.db0
       [FollowUser "u1" "u2"; FollowTopic "u1" "t"; FollowUser "u2" "u1";
        FollowUser "u1" "u2"; UnfollowUser "u1" "u2"; UnfollowTopic "u2" "t"]).
Proof.
  apply (follow_symmetry_preserved sample.db0). exact sample_db0_symmetric.
Defined.

(** ** The socket fan-out *)

Lemma join_members rooms sid room :
  sid ∈ socket.members (socket.join sid room rooms) room.
Proof.
  unfold socket.members, socket.join. rewrite lookup_insert_eq. cbn.
  set_solver.
Qed.

(** C8, as stated, fails: [c1] and [c2] are both in the room [q]; when
    [c1] sends [answerUpvoted], [answerDownvoted] or [answerFeatured] for
    [q], the event is delivered to [c2] but not to [c1], although [c1] is
    subscribed to the room. *)
Lemma vote_event_skips_originator :
  let rooms := socket.join "c2" "q" (socket.join "c1" "q" ∅) in
  "c1" ∈ socket.members rooms "q"
  ∧ "c2" ∈ socket.recipients rooms "c1" (socket.answerUpvoted "q" "a1")
  ∧ ("c1" ∉ socket.recipients rooms "c1" (socket.answerUpvoted "q" "a1"))
  ∧ ("c1" ∉ socket.recipients rooms "c1" (socket.answerDownvoted "q" "a1"))
  ∧ ("c1" ∉ socket.recipients rooms "c1" (socket.answerFeatured "q" "a1")).
Proof.
  cbn zeta. repeat split; apply (bool_decide_unpack _); vm_compute; exact I.
Qed.

(** C8 (amended): for every room and every event published to it, of any
    of the kinds answer-added, vote-change (upvote or downvote) and
    answer-featured, the event, with its payload, goes to the connections
    that are currently in the room other than the originating one: a
    connection receives it exactly when it is subscribed to the room and is
    not the originator. *)
Theorem broadcast_excludes_originator (rooms : socket.Rooms)
    (sid questionId answer answerId c : string) :
  let others := socket.members rooms questionId ∖ {[sid]} in
  socket.on rooms sid (socket.newAnswer questionId answer)
  = (rooms, Some (others, socket.emit_answerAdded answer))
  ∧ socket.on rooms sid (socket.answerUpvoted questionId answerId)
    = (rooms, Some (others, socket.emit_answerUpdated answerId "upvote"))
  ∧ socket.on rooms sid (socket.answerDownvoted questionId answerId)
    = (rooms, Some (others, socket.emit_answerUpdated answerId "downvote"))
  ∧ socket.on rooms sid (socket.answerFeatured questionId answerId)
    = (rooms, Some (others, socket.emit_answerFeatured answerId))
  ∧ (c ∈ others ↔ c ∈ socket.members rooms questionId ∧ c ≠ sid).
Proof.
  cbn zeta. do 4 (split; [reflexivity|]).
  rewrite elem_of_difference, elem_of_singleton. reflexivity.
Qed.
(** ** Errors never write *)

(** A request that is answered with an error leaves the store as it found
    it: no handler writes before its last check. *)
Theorem error_leaves_store_unchanged (db : Db) (user : ReqUser) (r : Request)
    (err : Failure) :
  snd (handle db user r) = Next err → fst (handle db user r) = db.
Proof.
  destruct r as [k d i|i b|i|i|i|i|i|i|i|i|i|i]; cbn [handle];
    try (destruct k, d; cbn [vote]);
    unfold questionController.upvoteQuestion,
      questionController.downvoteQuestion, answerController.upvoteAnswer,
      answerController.downvoteAnswer, answerController.createAnswer,
      answerController.featureAnswer, answerController.deleteAnswer,
      questionController.getQuestion, questionController.deleteQuestion,
      userController.followUser, userController.unfollowUser,
      userController.followTopic, userController.unfollowTopic,
      userController.deleteUser, topicController.deleteTopic;
    repeat match goal with
      | |- context [match ?x with _ => _ end] => destruct x
      end;
    cbn [fst snd]; intros H; try reflexivity; discriminate H.
Qed.

Lemma error_leaves_store_unchanged_witness :
  fst (handle sample.db0 sample.U2 (req_featureAnswer "a1")) = sample.db0.
Proof.
  apply (error_leaves_store_unchanged sample.db0 sample.U2
           (req_featureAnswer "a1")
           (AppError "You are not authorized to feature this answer" 401)).
  vm_compute. reflexivity.
Defined.

(** ** More on the array operators *)




Lemma NoDup_push x l : x ∉ l → NoDup l → NoDup (push x l).
Proof.
  intros Hx Hl. unfold push. apply NoDup_app. split; [done|].
  split; [|apply NoDup_singleton].
  intros y Hy ->%list_elem_of_singleton. done.
Qed.

Lemma NoDup_pull x l : NoDup l → NoDup (pull x l).
Proof.
  intros Hl. unfold pull.
  by apply NoDup_ListNoDup, List.NoDup_filter, NoDup_ListNoDup.
Qed.

(** ** More on votes *)

Lemma vote_sets_serve_vote_fresh (r : VoteRequest) (db : Db) (kind : Kind)
    (eid : ObjectId) :
  vote_sets kind (serve_vote db r) eid = vote_sets kind db eid
  ∨ ∃ sets, vote_sets kind db eid = Some sets
      ∧ (id (vr_user r) ∉ voters (vr_dir r) sets)
      ∧ vote_sets kind (serve_vote db r) eid
        = Some (cast (vr_dir r) (id (vr_user r)) sets).
Proof.
  destruct r as [k d u e]. unfold serve_vote. cbn [vr_kind vr_dir vr_user vr_entity].
  destruct k, d; cbn [vote];
    [ unfold questionController.upvoteQuestion
    | unfold questionController.downvoteQuestion
    | unfold answerController.upvoteAnswer
    | unfold answerController.downvoteAnswer ];
    match goal with
    | |- context [match ?m !! e with _ => _ end] =>
        destruct (m !! e) as [x|] eqn:He; [|by left]
    end;
    match goal with
    | |- context [if ?b then _ else _] =>
        destruct b eqn:Hinc; [by left|apply includes_false in Hinc]
    end;
    destruct kind; store_unfold; cbn [vote_sets cast]; store_unfold.
  all: try (left; reflexivity).
  all: try (destruct (decide (e = eid)) as [->|Hne];
            [ right; rewrite He; eexists; split; [reflexivity|];
              split; [exact Hinc|]; by rewrite lookup_insert_eq
            | left; by rewrite lookup_insert_ne ]).
  all: left; rewrite lookup_alter; case_decide; [subst|done];
       by destruct (questions db !! _).
Qed.

Lemma cast_NoDup (dir : Direction) (u : ObjectId)
    (sets : list ObjectId * list ObjectId) :
  u ∉ voters dir sets →
  NoDup (fst sets) ∧ NoDup (snd sets) →
  NoDup (fst (cast dir u sets)) ∧ NoDup (snd (cast dir u sets)).
Proof.
  intros Hu [H1 H2]. destruct dir; cbn [cast voters fst snd] in *;
    auto using NoDup_push, NoDup_pull.
Qed.

(** The vote arrays never hold a user twice: starting from arrays without
    duplicates (the empty arrays of a new question or answer, for one),
    neither array of the entity has a duplicate after any sequence of vote
    requests. *)
Theorem vote_arrays_no_duplicates (kind : Kind) (eid : ObjectId)
    (rs : list VoteRequest) (db : Db) (ups0 downs0 : list ObjectId) :
  vote_sets kind db eid = Some (ups0, downs0) →
  NoDup ups0 → NoDup downs0 →
  ∃ ups downs,
    vote_sets kind (serve_votes db rs) eid = Some (ups, downs)
    ∧ NoDup ups ∧ NoDup downs.
Proof.
  revert db ups0 downs0.
  induction rs as [|r rs IH]; intros db ups0 downs0 Hsets Hu Hd.
  - by exists ups0, downs0.
  - cbn [serve_votes foldl]. fold (serve_votes (serve_vote db r) rs).
    destruct (vote_sets_serve_vote_fresh r db kind eid)
      as [Hsame|(s & Hs & Hfresh & Hcast)].
    + apply (IH _ ups0 downs0); [congruence|done..].
    + rewrite Hsets in Hs. injection Hs as <-.
      destruct (cast_NoDup _ _ _ Hfresh (conj Hu Hd)) as [Hu' Hd'].
      destruct (cast (vr_dir r) (id (vr_user r)) (ups0, downs0))
        as [ups1 downs1] eqn:E.
      by apply (IH _ ups1 downs1).
Qed.

Lemma vote_arrays_no_duplicates_witness :
  ∃ ups downs,
    vote_sets question_kind
      (serve_votes sample.db0
         [mkVoteRequest question_kind up sample.U2 "q";
          mkVoteRequest question_kind down sample.U2 "q";
          mkVoteRequest question_kind up sample.U1 "q";
          mkVoteRequest question_kind up sample.U2 "q"]) "q"
    = Some (ups, downs)
    ∧ NoDup ups ∧ NoDup downs.
Proof.
  apply (vote_arrays_no_duplicates question_kind "q" _ sample.db0 [] []).
  - vm_compute. reflexivity.
  - apply NoDup_nil_2.
  - apply NoDup_nil_2.
Defined.



(** One round of downvote-then-upvote by a user who has upvoted *)
Lemma flip_round_effect (kind : Kind) (db : Db) (user : ReqUser)
    (eid : ObjectId) (sets : list ObjectId * list ObjectId)
    (wid : ObjectId) (r : Z) :
  vote_sets kind db eid = Some sets →
  id user ∈ fst sets → id user ∉ snd sets →
  author_of kind db eid = Some wid →
  reputation_of db wid = Some r →
  ∃ sets',
    vote_sets kind (flip_round kind user eid db) eid = Some sets'
    ∧ (∀ x, x ∈ fst sets' ↔ x ∈ fst sets)
    ∧ (∀ x, x ∈ snd sets' ↔ x ∈ snd sets)
    ∧ author_of kind (flip_round kind user eid db) eid = Some wid
    ∧ reputation_of (flip_round kind user eid db) wid
      = Some (r + match kind with question_kind => 8 | answer_kind => 20 end).
Proof.
  intros Hsets Hup Hdown Hauthor Hrep. unfold flip_round, reputation_of in *.
  destruct kind; cbn [vote vote_sets author_of] in *.
  - destruct (questions db !! eid) as [q|] eqn:Hq; [|discriminate Hsets].
    cbn in Hsets, Hauthor. injection Hsets as <-. injection Hauthor as <-.
    cbn [fst snd] in *.
    rewrite (downvoteQuestion_fresh _ _ _ _ Hq Hdown). cbn [fst].
    erewrite upvoteQuestion_fresh; cycle 1.
    { store_unfold. apply lookup_insert_eq. }
    { cbn. rewrite elem_of_pull. tauto. }
    store_unfold. cbn [Question.set_votes Question.author Question.upvotes
                       Question.downvotes].
    rewrite lookup_insert_eq, !lookup_alter_eq.
    destruct (users db !! Question.author q) as [w|]; [|discriminate Hrep].
    cbn in Hrep |- *. injection Hrep as <-.
    eexists. split; [reflexivity|]. cbn [fst snd].
    split; [|split; [|split; [reflexivity|f_equal; lia]]].
    + intros x. rewrite elem_of_push, elem_of_pull.
      destruct (decide (x = id user)) as [->|]; tauto.
    + intros x. rewrite elem_of_pull, elem_of_push.
      split; [tauto|]. intros Hx. split; [by left|]. by intros ->.
  - destruct (answers db !! eid) as [a|] eqn:Ha; [|discriminate Hsets].
    cbn in Hsets, Hauthor. injection Hsets as <-. injection Hauthor as <-.
    cbn [fst snd] in *.
    rewrite (downvoteAnswer_fresh _ _ _ _ Ha Hdown). cbn [fst].
    erewrite upvoteAnswer_fresh; cycle 1.
    { store_unfold. apply lookup_insert_eq. }
    { cbn. rewrite elem_of_pull. tauto. }
    store_unfold. cbn [Answer.set_votes Answer.author Answer.upvotes
                       Answer.downvotes].
    rewrite lookup_insert_eq, !lookup_alter_eq.
    destruct (users db !! Answer.author a) as [w|]; [|discriminate Hrep].
    cbn in Hrep |- *. injection Hrep as <-.
    eexists. split; [reflexivity|]. cbn [fst snd].
    split; [|split; [|split; [reflexivity|f_equal; lia]]].
    + intros x. rewrite elem_of_push, elem_of_pull.
      destruct (decide (x = id user)) as [->|]; tauto.
    + intros x. rewrite elem_of_pull, elem_of_push.
      split; [tauto|]. intros Hx. split; [by left|]. by intros ->.
Qed.

(** Reputation is not a function of the votes standing: a user who has
    upvoted an entity can downvote and upvote it again, [k] times over;
    the two vote sets then have the members they had, and the author has
    gained 8 points per round on a question (-2 + 10) and 20 per round on
    an answer (-5 + 15, and 5 from each of the two saves). *)
Theorem flip_rounds_inflate_reputation (kind : Kind) (user : ReqUser)
    (eid : ObjectId) (k : nat) (db : Db)
    (sets : list ObjectId * list ObjectId) (wid : ObjectId) (r : Z) :
  vote_sets kind db eid = Some sets →
  id user ∈ fst sets → id user ∉ snd sets →
  author_of kind db eid = Some wid →
  reputation_of db wid = Some r →
  let db' := Nat.iter k (flip_round kind user eid) db in
  ∃ sets',
    vote_sets kind db' eid = Some sets'
    ∧ (∀ x, x ∈ fst sets' ↔ x ∈ fst sets)
    ∧ (∀ x, x ∈ snd sets' ↔ x ∈ snd sets)
    ∧ reputation_of db' wid
      = Some (r + Z.of_nat k
                  * match kind with question_kind => 8 | answer_kind => 20 end).
Proof.
  intros Hsets Hup Hdown Hauthor Hrep db'. subst db'.
  assert (∃ sets',
    vote_sets kind (Nat.iter k (flip_round kind user eid) db) eid = Some sets'
    ∧ (∀ x, x ∈ fst sets' ↔ x ∈ fst sets)
    ∧ (∀ x, x ∈ snd sets' ↔ x ∈ snd sets)
    ∧ author_of kind (Nat.iter k (flip_round kind user eid) db) eid = Some wid
    ∧ reputation_of (Nat.iter k (flip_round kind user eid) db) wid
      = Some (r + Z.of_nat k
                  * match kind with question_kind => 8 | answer_kind => 20 end))
    as (sets' & H1 & H2 & H3 & _ & H5); [|by exists sets'].
  induction k as [|k IH].
  - exists sets. cbn [Nat.iter nat_rect].
    split; [done|]. split; [done|]. split; [done|]. split; [done|].
    rewrite Hrep. f_equal. lia.
  - destruct IH as (s & Hs & Hm1 & Hm2 & Ha & Hr).
    rewrite Nat.iter_succ.
    destruct (flip_round_effect kind _ user eid s wid _ Hs
                (proj2 (Hm1 _) Hup) (fun H => Hdown (proj1 (Hm2 _) H)) Ha Hr)
      as (s' & Hs' & Hm1' & Hm2' & Ha' & Hr').
    exists s'. split; [done|]. split; [|split; [|split; [done|]]].
    + intros x. by rewrite Hm1'.
    + intros x. by rewrite Hm2'.
    + rewrite Hr'. f_equal. destruct kind; lia.
Qed.

Lemma flip_rounds_inflate_reputation_witness :
  let db' := Nat.iter 3 (flip_round question_kind sample.U2 "q") sample.db_up in
  ∃ sets',
    vote_sets question_kind db' "q" = Some sets'
    ∧ (∀ x, x ∈ fst sets' ↔ x ∈ ["u2"])
    ∧ (∀ x, x ∈ snd sets' ↔ x ∈ [])
    ∧ reputation_of db' "u1" = Some (10 + Z.of_nat 3 * 8).
Proof.
  apply (flip_rounds_inflate_reputation question_kind sample.U2 "q" 3
           sample.db_up (["u2"], []) "u1" 10).
  - vm_compute. reflexivity.
  - simpl. apply list_elem_of_singleton. reflexivity.
  - simpl. apply not_elem_of_nil.
  - vm_compute. reflexivity.
  - vm_compute. reflexivity.
Defined.

(** ** Views, and deleting answers and questions *)



Lemma deleteAnswer_allowed db user aid a :
  answers db !! aid = Some a →
  may_delete user (Answer.author a) = true →
  answerController.deleteAnswer db user aid
  = (with_answers (delete aid) db, Json 204).
Proof.
  intros Ha Hmay. unfold answerController.deleteAnswer. rewrite Ha.
  unfold may_delete in Hmay.
  destruct (String.eqb (Answer.author a) (id user));
    destruct (String.eqb (User.role (doc user)) "admin");
    try discriminate Hmay; reflexivity.
Qed.


(** Deleting an answer does not undo what saving it did: when a user posts
    an answer under a fresh id and then deletes it, both requests succeed
    and the answers are those of before, but the question keeps the
    [answersCount] raised by one, and the user keeps the 5 points and the
    raised [answersCount] of the post-save hook. *)
Theorem create_then_delete_answer (db : Db) (user : ReqUser) (_id : ObjectId)
    (body : Answer.doc) (q : Question.doc) (w : User.doc) :
  answers db !! _id = None →
  questions db !! Answer.question body = Some q →
  Answer.content body ≠ "" →
  users db !! id user = Some w →
  let r1 := answerController.createAnswer db user _id body in
  let r2 := answerController.deleteAnswer (fst r1) user _id in
  snd r1 = Json 201 ∧ snd r2 = Json 204
  ∧ answers (fst r2) = answers db
  ∧ topics (fst r2) = topics db
  ∧ questions (fst r2) !! Answer.question body
    = Some (Question.inc_answersCount 1 q)
  ∧ users (fst r2) !! id user
    = Some (User.inc_reputation 5 (User.inc_answersCount 1 w)).
Proof.
  intros Hfresh Hq Hcontent Hw r1 r2. subst r1 r2.
  unfold answerController.createAnswer. cbv zeta.
  change (Answer.question (Answer.set_author (id user) body))
    with (Answer.question body).
  change (Answer.content (Answer.set_author (id user) body))
    with (Answer.content body).
  rewrite Hq.
  apply String.eqb_neq in Hcontent. rewrite Hcontent. cbn [fst snd].
  erewrite deleteAnswer_allowed; cycle 1.
  { store_unfold. apply lookup_insert_eq. }
  { unfold may_delete. cbn. by rewrite String.eqb_refl. }
  store_unfold. cbn [Answer.set_author Answer.question Answer.author].
  rewrite delete_insert_id by done.
  by rewrite !lookup_alter_eq, Hq, Hw.
Qed.

Lemma create_then_delete_answer_witness :
  let body := Answer.mk "third" "q" "" [] [] false in
  let r1 := answerController.createAnswer sample.db0 sample.U2 "a3" body in
  let r2 := answerController.deleteAnswer (fst r1) sample.U2 "a3" in
  snd r1 = Json 201 ∧ snd r2 = Json 204
  ∧ answers (fst r2) = answers sample.db0
  ∧ topics (fst r2) = topics sample.db0
  ∧ questions (fst r2) !! "q"
    = Some (Question.inc_answersCount 1 (Question.mk "u1" [] [] 0 2 false None))
  ∧ users (fst r2) !! "u2"
    = Some (User.inc_reputation 5 (User.inc_answersCount 1 sample.member)).
Proof.
  apply (create_then_delete_answer sample.db0 sample.U2 "a3"
           (Answer.mk "third" "q" "" [] [] false)
           (Question.mk "u1" [] [] 0 2 false None) sample.member).
  - vm_compute. reflexivity.
  - vm_compute. reflexivity.
  - simpl. discriminate.
  - vm_compute. reflexivity.
Defined.

(** Deleting the featured answer leaves the question pointing at it: after
    [featureAnswer] and then [deleteAnswer] of the same answer, the answer
    is gone and no answer of the question is featured, yet the question
    still has [featuredAnswer] set to the deleted id and [isAnswered]
    true. *)
Theorem delete_featured_answer_dangles (db : Db) (user : ReqUser)
    (aid : ObjectId) (a : Answer.doc) (q : Question.doc) :
  answers db !! aid = Some a →
  questions db !! Answer.question a = Some q →
  may_feature user q = true →
  may_delete user (Answer.author a) = true →
  let r1 := answerController.featureAnswer db user aid in
  let r2 := answerController.deleteAnswer (fst r1) user aid in
  snd r1 = Json 200 ∧ snd r2 = Json 204
  ∧ answers (fst r2) !! aid = None
  ∧ (∀ i a', answers (fst r2) !! i = Some a' →
             Answer.question a' = Answer.question a →
             Answer.isFeatured a' = false)
  ∧ ∃ q', questions (fst r2) !! Answer.question a = Some q'
          ∧ Question.featuredAnswer q' = Some aid
          ∧ Question.isAnswered q' = true.
Proof.
  intros Ha Hq Hmay Hdel r1 r2.
  pose proof (feature_response db user aid a q Ha Hq Hmay) as Hr1.
  pose proof (feature_target db user aid a q Ha Hq Hmay) as Ht.
  pose proof (feature_others db user aid a q Ha Hq Hmay) as Ho.
  pose proof (feature_question db user aid a q Ha Hq Hmay) as Hq1.
  fold r1 in Hr1, Ht, Ho, Hq1.
  assert (answerController.deleteAnswer (fst r1) user aid
          = (with_answers (delete aid) (fst r1), Json 204)) as Hr2.
  { by apply (deleteAnswer_allowed _ _ _ _ Ht). }
  subst r2. rewrite Hr2. store_unfold.
  split; [done|]. split; [done|]. split; [apply lookup_delete_eq|].
  split.
  - intros i a' Hi Hqa. destruct (decide (i = aid)) as [->|Hne].
    + by rewrite lookup_delete_eq in Hi.
    + rewrite lookup_delete_ne, (Ho i Hne) in Hi by done.
      destruct (answers db !! i) as [d|]; [|discriminate Hi].
      cbn in Hi. injection Hi as <-.
      destruct (String.eqb (Answer.question d) (Answer.question a)) eqn:E;
        [done|].
      apply String.eqb_neq in E. done.
  - eexists. split; [exact Hq1|]. by cbn.
Qed.

Lemma delete_featured_answer_dangles_witness :
  let admin := mkReqUser "u2" (User.mk "admin" 0 0 0 [] [] [] []) in
  let r1 := answerController.featureAnswer sample.db0 admin "a1" in
  let r2 := answerController.deleteAnswer (fst r1) admin "a1" in
  snd r1 = Json 200 ∧ snd r2 = Json 204
  ∧ answers (fst r2) !! "a1" = None
  ∧ (∀ i a', answers (fst r2) !! i = Some a' →
             Answer.question a' = "q" → Answer.isFeatured a' = false)
  ∧ ∃ q', questions (fst r2) !! "q" = Some q'
          ∧ Question.featuredAnswer q' = Some "a1"
          ∧ Question.isAnswered q' = true.
Proof.
  apply (delete_featured_answer_dangles sample.db0
           (mkReqUser "u2" (User.mk "admin" 0 0 0 [] [] [] [])) "a1"
           (Answer.mk "first" "q" "u3" [] [] false)
           (Question.mk "u1" [] [] 0 2 false None)).
  - vm_compute. reflexivity.
  - vm_compute. reflexivity.
  - vm_compute. reflexivity.
  - vm_compute. reflexivity.
Defined.



(** ** More on the follow graph *)



















(** ** Subscriptions *)

Lemma members_join rooms c q r :
  socket.members (socket.join c q rooms) r =
    if decide (q = r) then {[c]} ∪ socket.members rooms r
    else socket.members rooms r.
Proof.
  unfold socket.members, socket.join. rewrite lookup_insert.
  by case_decide; subst.
Qed.

Lemma members_leave rooms c q r :
  socket.members (socket.leave c q rooms) r =
    if decide (q = r) then socket.members rooms r ∖ {[c]}
    else socket.members rooms r.
Proof.
  unfold socket.members, socket.leave. rewrite lookup_partial_alter.
  case_decide; [subst r|done].
  destruct (rooms !! q) as [s|]; cbn; [|by rewrite empty_difference_L].
  unfold socket.drop. by case_decide as E; cbn; [rewrite E|].
Qed.

Lemma recipients_room rooms sender ev q :
  socket.room_of ev = Some q →
  socket.recipients rooms sender ev = socket.members rooms q ∖ {[sender]}.
Proof. by destruct ev; intros [= <-]. Qed.

(** What [joinQuestion] changes about delivery: after connection [c] has
    joined room [q], an event that [sender] publishes to a room [q'] reaches
    the connections it reached before and, when [q'] is [q] and [c] is not
    the sender, [c] as well.  Joining one room subscribes to no other. *)
Theorem joinQuestion_subscribes (rooms : socket.Rooms)
    (c q sender q' c' : string) (ev : socket.Incoming) :
  socket.room_of ev = Some q' →
  c' ∈ socket.recipients
         (fst (socket.on rooms c (socket.joinQuestion q))) sender ev
  ↔ c' ∈ socket.recipients rooms sender ev
    ∨ (q' = q ∧ c' = c ∧ c ≠ sender).
Proof.
  intros Hroom. rewrite !(recipients_room _ _ _ _ Hroom).
  cbn [socket.on fst]. rewrite members_join.
  case_decide; subst;
    rewrite ?elem_of_difference, ?elem_of_union, !elem_of_singleton;
    intuition congruence.
Qed.

Lemma joinQuestion_subscribes_witness :
  "c1" ∈ socket.recipients
           (fst (socket.on ∅ "c1" (socket.joinQuestion "q"))) "c2"
           (socket.newAnswer "q" "text")
  ↔ "c1" ∈ socket.recipients ∅ "c2" (socket.newAnswer "q" "text")
    ∨ ("q" = "q" ∧ "c1" = "c1" ∧ "c1" ≠ "c2").
Proof.
  apply (joinQuestion_subscribes ∅ "c1" "q" "c2" "q" "c1"
           (socket.newAnswer "q" "text")).
  reflexivity.
Defined.

(** What [leaveQuestion] changes about delivery: after connection [c] has
    left room [q], an event that [sender] publishes to a room [q'] reaches
    the connections it reached before, except [c] when [q'] is [q].  In
    particular leaving a room that was never joined changes nothing. *)
Theorem leaveQuestion_unsubscribes (rooms : socket.Rooms)
    (c q sender q' c' : string) (ev : socket.Incoming) :
  socket.room_of ev = Some q' →
  c' ∈ socket.recipients
         (fst (socket.on rooms c (socket.leaveQuestion q))) sender ev
  ↔ c' ∈ socket.recipients rooms sender ev ∧ ¬ (q' = q ∧ c' = c).
Proof.
  intros Hroom. rewrite !(recipients_room _ _ _ _ Hroom).
  cbn [socket.on fst]. rewrite members_leave.
  case_decide; subst;
    rewrite ?elem_of_difference, !elem_of_singleton;
    intuition congruence.
Qed.

Lemma leaveQuestion_unsubscribes_witness :
  "c1" ∈ socket.recipients
           (fst (socket.on (socket.join "c1" "q" ∅) "c1"
                   (socket.leaveQuestion "q"))) "c2"
           (socket.answerFeatured "q" "a1")
  ↔ "c1" ∈ socket.recipients (socket.join "c1" "q" ∅) "c2"
             (socket.answerFeatured "q" "a1")
    ∧ ¬ ("q" = "q" ∧ "c1" = "c1").
Proof.
  apply (leaveQuestion_unsubscribes (socket.join "c1" "q" ∅) "c1" "q" "c2"
           "q" "c1" (socket.answerFeatured "q" "a1")).
  reflexivity.
Defined.

(** ** Who may do what *)

Lemma eqb_or_admin (x y role : string) :
  negb (String.eqb x y) && negb (String.eqb role "admin") = false
  ↔ x = y ∨ role = "admin".
Proof.
  rewrite andb_false_iff, !negb_false_iff, !String.eqb_eq. reflexivity.
Qed.

(** A vote is accepted exactly when the entity exists and the user is not
    yet in the set of the requested direction; membership in the other set
    never stands in the way. *)
Theorem vote_accepts_iff (kind : Kind) (dir : Direction) (db : Db)
    (user : ReqUser) (eid : ObjectId) :
  snd (vote kind dir db user eid) = Json 200
  ↔ ∃ sets, vote_sets kind db eid = Some sets ∧ id user ∉ voters dir sets.
Proof.
  destruct kind, dir; cbn [vote vote_sets];
    [ unfold questionController.upvoteQuestion
    | unfold questionController.downvoteQuestion
    | unfold answerController.upvoteAnswer
    | unfold answerController.downvoteAnswer ];
    match goal with
    | |- context [match ?m !! eid with _ => _ end] =>
        destruct (m !! eid) as [x|]; cbn [fmap option_fmap option_map snd];
        [|split; [discriminate|by intros (? & ? & _)]]
    end;
    match goal with
    | |- context [if ?b then _ else _] => destruct b eqn:Hinc
    end; cbn [snd].
  all: try (apply includes_true in Hinc; split; [discriminate|];
            by intros (? & [= <-] & ?)).
  all: apply includes_false in Hinc; split; [|done]; intros _;
       eexists; split; [reflexivity|exact Hinc].
Qed.

(** [featureAnswer] accepts a request exactly when the answer exists, its
    question still exists, and the caller is the author of the question or
    has the role admin.  The author of the answer has no say. *)
Theorem featureAnswer_accepts_iff (db : Db) (user : ReqUser) (aid : ObjectId) :
  snd (answerController.featureAnswer db user aid) = Json 200
  ↔ ∃ a q, answers db !! aid = Some a
           ∧ questions db !! Answer.question a = Some q
           ∧ (Question.author q = id user ∨ User.role (doc user) = "admin").
Proof.
  unfold answerController.featureAnswer.
  destruct (answers db !! aid) as [a|]; cbn [snd].
  2:{ split; [discriminate|]. by intros (? & ? & ? & _). }
  destruct (questions db !! Answer.question a) as [q|] eqn:Hq; cbn [snd].
  2:{ split; [discriminate|]. intros (? & ? & [= <-] & Hq' & _).
      by rewrite Hq in Hq'. }
  destruct (negb _ && negb _) eqn:E; cbn [snd].
  - split; [discriminate|]. intros (? & ? & [= <-] & Hq' & Hor).
    rewrite Hq in Hq'. injection Hq' as <-.
    apply eqb_or_admin in Hor. by rewrite E in Hor.
  - split; [|done]. intros _. exists a, q.
    split; [done|]. split; [done|]. by apply eqb_or_admin.
Qed.

(** [deleteAnswer] and [deleteQuestion] accept a request exactly when the
    document exists and the caller is its author or has the role admin. *)
Theorem delete_accepts_iff (db : Db) (user : ReqUser) (i : ObjectId) :
  (snd (answerController.deleteAnswer db user i) = Json 204
   ↔ ∃ a, answers db !! i = Some a
          ∧ (Answer.author a = id user ∨ User.role (doc user) = "admin"))
  ∧ (snd (questionController.deleteQuestion db user i) = Json 204
     ↔ ∃ q, questions db !! i = Some q
            ∧ (Question.author q = id user ∨ User.role (doc user) = "admin")).
Proof.
  unfold answerController.deleteAnswer, questionController.deleteQuestion.
  split.
  - destruct (answers db !! i) as [a|]; cbn [snd].
    2:{ split; [discriminate|]. by intros (? & ? & _). }
    destruct (negb _ && negb _) eqn:E; cbn [snd].
    + split; [discriminate|]. intros (? & [= <-] & Hor).
      apply eqb_or_admin in Hor. by rewrite E in Hor.
    + split; [|done]. intros _. exists a. split; [done|].
      by apply eqb_or_admin.
  - destruct (questions db !! i) as [q|]; cbn [snd].
    2:{ split; [discriminate|]. by intros (? & ? & _). }
    destruct (negb _ && negb _) eqn:E; cbn [snd].
    + split; [discriminate|]. intros (? & [= <-] & Hor).
      apply eqb_or_admin in Hor. by rewrite E in Hor.
    + split; [|done]. intros _. exists q. split; [done|].
      by apply eqb_or_admin.
Qed.



(** ** The follow lists are sets *)

Lemma NoDup_addToSet x l : NoDup l → NoDup (addToSet x l).
Proof.
  intros Hl. unfold addToSet. destruct (includes x l) eqn:E; [done|].
  apply includes_false in E. by apply NoDup_push.
Qed.

Lemma nodup_User_update i f db :
  (∀ u, user_lists_nodup u → user_lists_nodup (f u)) →
  follow_lists_nodup db → follow_lists_nodup (User_update i f db).
Proof.
  intros Hf [Hus Hts]. split; [|exact Hts].
  intros a u. unfold User_update, with_users. cbn [users].
  rewrite lookup_alter_Some. intros [(_ & u0 & Hu0 & ->)|[_ Hu]]; eauto.
Qed.

Lemma nodup_Topic_update i f db :
  (∀ d, NoDup (Topic.followers d) → NoDup (Topic.followers (f d))) →
  follow_lists_nodup db → follow_lists_nodup (Topic_update i f db).
Proof.
  intros Hf [Hus Hts]. split; [exact Hus|].
  intros t d. unfold Topic_update, with_topics. cbn [topics].
  rewrite lookup_alter_Some. intros [(_ & d0 & Hd0 & ->)|[_ Hd]]; eauto.
Qed.

Lemma user_lists_nodup_upd u x :
  user_lists_nodup u →
  user_lists_nodup (User.upd_following (addToSet x) u)
  ∧ user_lists_nodup (User.upd_following (pull x) u)
  ∧ user_lists_nodup (User.upd_followers (addToSet x) u)
  ∧ user_lists_nodup (User.upd_followers (pull x) u)
  ∧ user_lists_nodup (User.upd_followingTopics (addToSet x) u)
  ∧ user_lists_nodup (User.upd_followingTopics (pull x) u).
Proof.
  intros (H1 & H2 & H3). unfold user_lists_nodup.
  cbn -[addToSet pull].
  repeat split; auto using NoDup_addToSet, NoDup_pull.
Qed.

Lemma serve_follow_nodup db r :
  follow_lists_nodup db → follow_lists_nodup (serve_follow db r).
Proof.
  intros Hdb.
  destruct r as [a b|a b|a t|a t]; unfold serve_follow, route, protect;
    (destruct (users db !! a) as [u|]; [|exact Hdb]);
    [ unfold userController.followUser
    | unfold userController.unfollowUser
    | unfold userController.followTopic
    | unfold userController.unfollowTopic ];
    repeat match goal with
      | |- context [match ?x with _ => _ end] => destruct x
      end;
    cbn [fst]; try exact Hdb.
  all: repeat first
         [ apply nodup_User_update; [intros u0 Hu0; apply user_lists_nodup_upd, Hu0|]
         | apply nodup_Topic_update;
             [intros d0 Hd0; cbn -[addToSet pull];
              auto using NoDup_addToSet, NoDup_pull|] ];
       exact Hdb.
Qed.

(** The follow lists behave as sets: when no [following], [followers] or
    [followingTopics] list of a user and no [followers] list of a topic
    holds an id twice, that is still so after any sequence of follow and
    unfollow requests. *)
Theorem follow_lists_no_duplicates (db : Db) (rs : list FollowRequest) :
  follow_lists_nodup db → follow_lists_nodup (serve_follows db rs).
Proof.
  revert db. induction rs as [|r rs IH]; intros db Hdb; [exact Hdb|].
  cbn [serve_follows foldl]. apply IH. by apply serve_follow_nodup.
Qed.

Lemma sample_db0_nodup : follow_lists_nodup sample.db0.
Proof.
  split.
  - intros a u. unfold sample.db0. cbn [users].
    rewrite !lookup_insert_Some, lookup_empty.
    assert (user_lists_nodup sample.member) as Hm.
    { repeat split; apply NoDup_nil_2. }
    intuition (try discriminate; by subst).
  - intros t d. unfold sample.db0. cbn [topics].
    rewrite !lookup_insert_Some, lookup_empty.
    intros [[_ <-]|[_ ?]]; [apply NoDup_nil_2|discriminate].
Qed.

Lemma follow_lists_no_duplicates_witness :
  follow_lists_nodup
    (serve_follows sample.db0
       [FollowUser "u1" "u2"; FollowUser "u3" "u2"; FollowTopic "u1" "t";
        FollowUser "u1" "u2"; UnfollowUser "u3" "u2"]).
Proof.
  apply (follow_lists_no_duplicates sample.db0). exact sample_db0_nodup.
Defined.
